(** * TEXTWEAVE: the OCR backend (Flask handler and [ocr_utils] package)

    A shallow embedding of
    - [ocr_utils/postprocess.py]  ([clean_text]),
    - [ocr_utils/preprocess.py]   ([preprocess_image]),
    - [ocr_utils/reader.py]       ([extract_text_from_image]),
    - [app.py]                    ([allowed_file], [extract_text]),
    followed by the properties of the service.

    Python [str] values are sequences of Unicode code points, so a string is
    a [list N]; the file system and [request.files] are finite maps; the
    third-party libraries (OpenCV, EasyOCR, werkzeug, the [str.lower]
    builtin) are an interface the development is parametric in. *)

From Stdlib Require Import NArith ZArith List Bool String Ascii Lia.
From stdpp Require Import base gmap sets list strings.

Local Open Scope N_scope.

(** ** Python strings *)

Module PyStr.

(** One Unicode code point. *)
Definition char := N.
Abbreviation pystr := (list N).

(** An ASCII literal as a Python string. *)
Fixpoint of_string (s : string) : pystr :=
  match s with
  | EmptyString => []
  | String a t => N_of_ascii a :: of_string t
  end.

Definition SP : char := 32.
Definition DOT : char := 46.
Definition COMMA : char := 44.

(** [c in s] for a one-character needle. *)
Fixpoint contains (c : char) (s : pystr) : bool :=
  match s with
  | [] => false
  | x :: t => (x =? c) || contains c t
  end.

(** The split of [s] at the last occurrence of [c], when there is one. *)
Fixpoint rsplit_last (c : char) (s : pystr) : option (pystr * pystr) :=
  match s with
  | [] => None
  | x :: t =>
      match rsplit_last c t with
      | Some (a, b) => Some (x :: a, b)
      | None => if x =? c then Some ([], t) else None
      end
  end.

(** [s.rsplit(c, 1)]: at most one split, done from the right. *)
Definition rsplit1 (c : char) (s : pystr) : list pystr :=
  match rsplit_last c s with
  | Some (a, b) => [a; b]
  | None => [s]
  end.

(** [s.split(c)]: one more piece than there are separators; pieces may be
    empty. *)
Fixpoint split (c : char) (s : pystr) : list pystr :=
  match s with
  | [] => [[]]
  | x :: t =>
      if x =? c then [] :: split c t
      else match split c t with
           | p :: ps => (x :: p) :: ps
           | [] => [[x]]
           end
  end.

(** [sep.join(parts)]. *)
Fixpoint join (sep : pystr) (parts : list pystr) : pystr :=
  match parts with
  | [] => []
  | [p] => p
  | p :: ps => p ++ sep ++ join sep ps
  end.

(** [Py_UNICODE_ISSPACE]: the characters [str.strip()] strips and the
    pattern [\s] of a [str] regular expression matches. *)
Definition is_space (c : char) : bool :=
  ((9 <=? c) && (c <=? 13)) || ((28 <=? c) && (c <=? 32))
  || (c =? 133) || (c =? 160) || (c =? 5760)
  || ((8192 <=? c) && (c <=? 8202))
  || (c =? 8232) || (c =? 8233) || (c =? 8239) || (c =? 8287)
  || (c =? 12288).

(** [s.lstrip()]. *)
Fixpoint lstrip (s : pystr) : pystr :=
  match s with
  | [] => []
  | c :: t => if is_space c then lstrip t else s
  end.

(** [s.rstrip()]. *)
Fixpoint rstrip (s : pystr) : pystr :=
  match s with
  | [] => []
  | c :: t =>
      match rstrip t with
      | [] => if is_space c then [] else [c]
      | t' => c :: t'
      end
  end.

(** [s.strip()]. *)
Definition strip (s : pystr) : pystr := rstrip (lstrip s).

End PyStr.
Import PyStr.

(** ** [ocr_utils/postprocess.py] *)

(** The class [[\x20-\x7E]]. *)
Definition printable (c : char) : bool := (32 <=? c) && (c <=? 126).

(** [re.sub(r'[^\x20-\x7E]', '', text)]: every character outside the class
    is a match and is replaced by the empty string. *)
Definition remove_nonprintable (text : pystr) : pystr :=
  List.filter printable text.

(** [re.sub(r'\s+', ' ', text)]: scanning from the left, every maximal run
    of whitespace is one match and is replaced by one space.  [in_run] says
    that the previous character belonged to the run being replaced. *)
Fixpoint sub_ws (in_run : bool) (text : pystr) : pystr :=
  match text with
  | [] => []
  | c :: t =>
      if is_space c
      then (if in_run then sub_ws true t else SP :: sub_ws true t)
      else c :: sub_ws false t
  end.

Definition collapse_whitespace (text : pystr) : pystr := sub_ws false text.

Definition clean_text (text : pystr) : pystr :=
  let text := remove_nonprintable text in
  let text := collapse_whitespace text in
  let text := strip text in
  text.

(** ** The environment of the service *)

(** Raw bytes of a file. *)
Abbreviation bytes := (list N).

(** A single-channel 8-bit image: rows of intensities. *)
Abbreviation image := (list (list Z)).

(** One EasyOCR detection: [(bbox, text, confidence)], the confidence as a
    fraction. *)
Record detection := Detection {
  det_bbox : list (Z * Z);
  det_text : pystr;
  det_confidence : Z * positive
}.

(** The exceptions that occur in the program. *)
Inductive exn :=
| IndexError
| FileNotFoundError (msg : pystr)
| OSError (errno : N)
| EngineError (code : N).

Definition result (A : Type) : Type := exn + A.

(** The library functions the program calls: the [str.lower] builtin (the
    only fact used about it is that lower-casing twice is lower-casing
    once), [werkzeug.utils.secure_filename], the decoder behind
    [cv2.imread(_, cv2.IMREAD_GRAYSCALE)], [cv2.GaussianBlur(_, (5, 5), 0)],
    the Gaussian-weighted neighbourhood mean [cv2.adaptiveThreshold] compares
    with, and [reader.readtext] of the process-wide EasyOCR reader, which
    either returns its detections or raises.

    [save_failure files path content] is the answer of the operating system
    to writing [content] to [path] when the regular files are [files]:
    [None] when the write goes through, and otherwise the exception raised
    (a name that is too long, a directory at the path, a missing parent
    directory, no permission, a full disk) together with what was written to
    the file before, if the file was opened at all. *)
Class Libs := {
  str_lower : pystr -> pystr;
  str_lower_idem : forall s, str_lower (str_lower s) = str_lower s;
  secure_filename : pystr -> pystr;
  imdecode_gray : bytes -> option image;
  GaussianBlur5 : image -> image;
  gaussian_mean : nat -> image -> nat -> nat -> Z;
  readtext : image -> result (list detection);
  save_failure :
    gmap pystr bytes -> pystr -> bytes -> option (exn * option bytes)
}.

(** What a request can change or observe: the file system, and (as ghost
    state) the calls made so far, oldest first. *)
Inductive event :=
| EvSave (path : pystr)
| EvPreprocess (path : pystr)
| EvReadtext (img : image)
| EvRemove (path : pystr).

Record world := World {
  fs : gmap pystr bytes;
  log : list event
}.

(** Computations that may change the world and may raise; what was done
    before an exception stays done. *)
Definition M (A : Type) : Type := world -> world * result A.

Definition ret {A} (x : A) : M A := fun w => (w, inr x).
Definition raise {A} (e : exn) : M A := fun w => (w, inl e).
Definition bind {A B} (m : M A) (k : A -> M B) : M B :=
  fun w => match m w with
           | (w', inr a) => k a w'
           | (w', inl e) => (w', inl e)
           end.
Definition lift {A} (r : result A) : M A := fun w => (w, r).
Definition get_fs : M (gmap pystr bytes) := fun w => (w, inr (fs w)).
Definition emit (e : event) : M unit :=
  fun w => (World (fs w) (log w ++ [e]), inr tt).

#[global] Instance M_ret : MRet M := @ret.
#[global] Instance M_bind : MBind M := fun A B k m => bind m k.

(** ** [os] and [FileStorage] *)

Definition SLASH : char := 47.

(** [os.path.join(a, b)] of [posixpath]. *)
Definition path_join (a b : pystr) : pystr :=
  if bool_decide (head b = Some SLASH) then b
  else if bool_decide (a = []) || bool_decide (last a = Some SLASH)
       then a ++ b
       else a ++ SLASH :: b.

Record FileStorage := {
  filename : pystr;
  stream : bytes
}.

(** [file.save(path)]: opens [path] for writing and copies the stream.  When
    the operating system refuses, the exception is raised, with a partial
    file left behind if the file had been opened. *)
Definition file_save `{Libs} (file : FileStorage) (path : pystr) : M unit :=
  fun w =>
    match save_failure (fs w) path (stream file) with
    | None =>
        (World (<[path := stream file]> (fs w)) (log w ++ [EvSave path]),
         inr tt)
    | Some (e, None) => (w, inl e)
    | Some (e, Some partial) =>
        (World (<[path := partial]> (fs w)) (log w), inl e)
    end.

(** [os.remove(path)], which raises when there is no such file. *)
Definition os_remove (path : pystr) : M unit :=
  fun w => match fs w !! path with
           | Some _ => (World (delete path (fs w)) (log w ++ [EvRemove path]),
                        inr tt)
           | None => (w, inl (FileNotFoundError path))
           end.

(** ** [ocr_utils/preprocess.py] *)

(** [cv2.imread(path, cv2.IMREAD_GRAYSCALE)]: [None] when the file is
    missing or its content does not decode. *)
Definition imread `{Libs} (files : gmap pystr bytes) (path : pystr)
  : option image :=
  match files !! path with
  | Some content => imdecode_gray content
  | None => None
  end.

(** [cv2.adaptiveThreshold(src, maxValue, ADAPTIVE_THRESH_GAUSSIAN_C,
    THRESH_BINARY, blockSize, C)]: a pixel becomes [maxValue] when it is
    above the weighted mean of its neighbourhood minus [C], else [0]. *)
Definition adaptiveThreshold `{Libs} (src : image) (maxValue : Z)
    (blockSize : nat) (C : Z) : image :=
  imap (fun y row =>
          imap (fun x p =>
                  if (gaussian_mean blockSize src y x - C <? p)%Z
                  then maxValue else 0%Z) row) src.

Definition image_not_found (image_path : pystr) : pystr :=
  of_string "Image not found: " ++ image_path.

Definition preprocess_image `{Libs} (image_path : pystr) : M image :=
  emit (EvPreprocess image_path);;
  files ← get_fs;
  match imread files image_path with
  | None => raise (FileNotFoundError (image_not_found image_path))
  | Some img =>
      let img_blur := GaussianBlur5 img in
      let img_thresh := adaptiveThreshold img_blur 255 11 2 in
      ret img_thresh
  end.

(** ** [ocr_utils/reader.py] *)

(** [reader.readtext(img)] on the process-wide reader. *)
Definition reader_readtext `{Libs} (img : image) : M (list detection) :=
  emit (EvReadtext img);; lift (readtext img).

(** [" ".join([text[1] for text in result])]. *)
Definition raw_text (result : list detection) : pystr :=
  join [SP] (map det_text result).

Definition extract_text_from_image `{Libs} (image_path : pystr) : M pystr :=
  preprocessed_img ← preprocess_image image_path;
  result ← reader_readtext preprocessed_img;
  let raw := raw_text result in
  let cleaned_text := clean_text raw in
  ret cleaned_text.

(** ** [app.py] *)

Record config := {
  UPLOAD_FOLDER : pystr;
  ALLOWED_EXTENSIONS : gset pystr
}.

(** [os.getenv(name, default)]. *)
Definition getenv (env : gmap string pystr) (name : string) (dflt : pystr)
  : pystr :=
  default dflt (env !! name).

(** The configuration [app.py] builds at import time. *)
Definition load_config (env : gmap string pystr) : config :=
  {| UPLOAD_FOLDER := getenv env "UPLOAD_FOLDER" (of_string "app/uploads");
     ALLOWED_EXTENSIONS :=
       list_to_set
         (split COMMA
            (getenv env "ALLOWED_EXTENSIONS" (of_string "jpg,jpeg,png"))) |}.

(** [l[i]], which raises [IndexError] out of range. *)
Definition index {A} (l : list A) (i : nat) : result A :=
  match l !! i with
  | Some x => inr x
  | None => inl IndexError
  end.

Definition allowed_file `{Libs} (cfg : config) (filename : pystr)
  : result bool :=
  if contains DOT filename then
    match index (rsplit1 DOT filename) 1 with
    | inr ext => inr (bool_decide (str_lower ext ∈ ALLOWED_EXTENSIONS cfg))
    | inl e => inl e
    end
  else inr false.

(** A JSON object with string values, and the response built from it. *)
Record response := Response {
  status : N;
  body : list (string * pystr)
}.

Definition jsonify (obj : list (string * pystr)) (code : N) : response :=
  Response code obj.

Record request := {
  files : gmap string FileStorage
}.

Definition extract_text `{Libs} (cfg : config) (req : request) : M response :=
  match files req !! "file"%string with
  | None =>
      ret (jsonify [("error"%string, of_string "No file part in request")] 400)
  | Some file =>
      if bool_decide (filename file = []) then
        ret (jsonify [("error"%string, of_string "No selected file")] 400)
      else
        ok ← lift (allowed_file cfg (filename file));
        if negb ok then
          ret (jsonify [("error"%string, of_string "Unsupported file type")]
                 400)
        else
          let name := secure_filename (filename file) in
          let file_path := path_join (UPLOAD_FOLDER cfg) name in
          file_save file file_path;;
          extracted_text ← extract_text_from_image file_path;
          os_remove file_path;;
          ret (jsonify [("extracted_text"%string, extracted_text)] 200)
  end.

(** * Vocabulary of the properties *)

(** ** Cleaned text *)

(** [normal_from b s]: every whitespace character of [s] is a space that
    follows a character which is not whitespace ([b] stands for the
    character before [s]). *)
Fixpoint normal_from (b : bool) (s : pystr) : bool :=
  match s with
  | [] => true
  | c :: t =>
      if is_space c then negb b && (c =? SP) && normal_from true t
      else normal_from false t
  end.

(** The first character, when there is one, is not whitespace. *)
Definition starts_nonspace (s : pystr) : Prop :=
  match s with
  | [] => True
  | c :: _ => is_space c = false
  end.

(** What [clean_text] returns: printable characters only, single spaces
    only, and none of them at either end. *)
Record cleaned (s : pystr) : Prop := {
  cleaned_printable : Forall (fun c => printable c = true) s;
  cleaned_normal : normal_from false s = true;
  cleaned_strip : strip s = s
}.

(** A printable word: no whitespace, printable characters only. *)
Definition word_char (c : char) : bool := printable c && negb (is_space c).

Definition is_word (w : pystr) : Prop :=
  w <> [] /\ Forall (fun c => word_char c = true) w.



(** ** Extensions *)

(** The substring after the last ['.'], when the name has a ['.']. *)
Definition extension (filename : pystr) : option pystr :=
  snd <$> rsplit_last DOT filename.

(** Equality up to letter case. *)
Definition same_ignoring_case `{Libs} (a b : pystr) : Prop :=
  str_lower a = str_lower b.

(** ** Images and detections *)

(** Every pixel is background or foreground. *)
Definition binarized (img : image) : Prop :=
  Forall (Forall (fun p => p = 0%Z \/ p = 255%Z)) img.

(** The pixel in row [y] and column [x], when the image has one there. *)
Definition pixel (img : image) (y x : nat) : option Z :=
  img !! y ≫= fun row => row !! x.

(** [out] has the rows and columns of [src], and each of its pixels is
    [maxValue] when the pixel of [src] is above the weighted mean of its
    neighbourhood minus [C], and [0] otherwise. *)
Definition thresholded `{Libs} (src out : image) (maxValue : Z)
    (blockSize : nat) (C : Z) : Prop :=
  map length out = map length src /\
  forall y x p,
    pixel src y x = Some p ->
    pixel out y x =
    Some (if (gaussian_mean blockSize src y x - C <? p)%Z
          then maxValue else 0%Z).

(** The words of the specification: the strings in order, a single space
    between one and the next. *)
Definition joined_by_single_spaces (texts : list pystr) : pystr :=
  match texts with
  | [] => []
  | t :: rest => fold_left (fun acc x => acc ++ SP :: x) rest t
  end.

(** ** Requests *)

(** The body and status of the three refusals. *)
Definition error_response (msg : string) : response :=
  jsonify [("error"%string, of_string msg)] 400.

(** Where the upload of [file] is stored while it is processed. *)
Definition temp_path `{Libs} (cfg : config) (file : FileStorage) : pystr :=
  path_join (UPLOAD_FOLDER cfg) (secure_filename (filename file)).

(** A request that passes the three checks of the handler. *)
Definition accepted `{Libs} (cfg : config) (req : request)
    (file : FileStorage) : Prop :=
  files req !! "file"%string = Some file /\
  filename file <> [] /\
  allowed_file cfg (filename file) = inr true.

(** The operating system lets the upload be written. *)
Definition save_succeeds `{Libs} (cfg : config) (file : FileStorage)
    (w : world) : Prop :=
  save_failure (fs w) (temp_path cfg file) (stream file) = None.

(** The world once the upload is saved and [preprocess_image] was entered. *)
Definition saved `{Libs} (cfg : config) (file : FileStorage) (w : world)
  : world :=
  World (<[temp_path cfg file := stream file]> (fs w))
        (log w ++ [EvSave (temp_path cfg file);
                   EvPreprocess (temp_path cfg file)]).

Definition called (e : event) (w : world) (w' : world) : Prop :=
  exists before after, log w' = log w ++ before ++ e :: after.

(** ** Sample data

    The sample libraries agree with the real ones on the ASCII inputs of the
    examples: [ascii_lower] folds [A-Z], [safe_char] is the class of
    characters werkzeug keeps, the files that decode are the one-pixel
    binary PGM images, on which the two OpenCV filters are those of a
    one-pixel neighbourhood, and short file names can be written. *)

Definition ascii_lower_char (c : char) : char :=
  if (65 <=? c) && (c <=? 90) then c + 32 else c.

Definition ascii_lower (s : pystr) : pystr := map ascii_lower_char s.

Definition safe_char (c : char) : bool :=
  ((48 <=? c) && (c <=? 57)) || ((65 <=? c) && (c <=? 90))
  || ((97 <=? c) && (c <=? 122)) || (c =? 95) || (c =? 45) || (c =? 46).

(** The header [P5\n1 1\n255\n] of a binary PGM image of one pixel. *)
Definition pgm_header : bytes := [80; 53; 10; 49; 32; 49; 10; 50; 53; 53; 10].

(** The binary PGM file of the one-pixel image of intensity [p]. *)
Definition one_pixel_pgm (p : N) : bytes := pgm_header ++ [p].

(** A decoder for one-pixel binary PGM files (OpenCV decodes by content, not
    by file name); nothing else decodes. *)
Definition pgm_decode (content : bytes) : option image :=
  if bool_decide (take 11 content = pgm_header) then
    match drop 11 content with
    | [p] => if p <=? 255 then Some [[Z.of_N p]] else None
    | _ => None
    end
  else None.

(** The last component of a path. *)
Definition basename (path : pystr) : pystr :=
  match rsplit_last SLASH path with
  | Some (_, name) => name
  | None => path
  end.

(** A host on which a write fails only for a file name of more than 255
    characters ([ENAMETOOLONG]), before the file is opened. *)
Definition name_too_long (files : gmap pystr bytes) (path : pystr)
    (content : bytes) : option (exn * option bytes) :=
  if (255 <? length (basename path))%nat then Some (OSError 36, None)
  else None.

Definition pixel_at (img : image) (y x : nat) : Z :=
  default 0%Z (img !! y ≫= fun row => row !! x).

Definition hello_world : list detection :=
  [Detection [(0, 0); (9, 0); (9, 9); (0, 9)]%Z (of_string "HELLO")
     (9%Z, 10%positive);
   Detection [(12, 0); (30, 0); (30, 9); (12, 9)]%Z (of_string "WORLD")
     (4%Z, 5%positive)].

Definition two_words (_ : image) : result (list detection) := inr hello_world.

Definition default_config : config := load_config ∅.

Definition upload (name : string) (content : bytes) : request :=
  {| files := {[ "file"%string :=
                   {| filename := of_string name; stream := content |} ]} |}.

Definition failing_engine (_ : image) : result (list detection) :=
  inl (EngineError 1).

Definition empty_world : world := World ∅ [].

(** The allow-set configured in upper case. *)
Definition upper_case_config : config :=
  load_config {[ "ALLOWED_EXTENSIONS"%string := of_string "JPG,PNG" ]}.

(** ** Tactics *)

Ltac run :=
  unfold extract_text, extract_text_from_image, preprocess_image,
    reader_readtext, file_save, os_remove, emit, get_fs, lift, raise,
    mbind, M_bind, bind, mret, M_ret, ret; simpl.

(** Runs the handler of an accepted request up to the result of [imread]
    on the saved upload, which [Hrd] gives. *)
Ltac enter_pipeline Hacc Hsave Hrd :=
  let E := fresh "E" in
  let Hne := fresh "Hne" in
  let Hok := fresh "Hok" in
  destruct Hacc as (E & Hne & Hok);
  unfold extract_text; rewrite E;
  rewrite bool_decide_eq_false_2 by done;
  revert Hsave Hrd; unfold save_succeeds, saved, temp_path; run;
  rewrite Hok; simpl; intros ->; simpl;
  rewrite <- app_assoc; simpl; intros ->; simpl.

(** Decides [accepted] for a concrete request. *)
Ltac accept :=
  split; [vm_compute; reflexivity | split; [discriminate |
                                            vm_compute; reflexivity]].

(** * Properties *)

(** ** The sample libraries *)

Lemma ascii_lower_char_idem c :
  ascii_lower_char (ascii_lower_char c) = ascii_lower_char c.
Proof.
  unfold ascii_lower_char.
  destruct ((65 <=? c) && (c <=? 90)) eqn:E; [|by rewrite E].
  apply andb_true_iff in E as [E1 E2].
  apply N.leb_le in E1, E2.
  replace (c + 32 <=? 90) with false; [by rewrite andb_false_r|].
  symmetry. apply N.leb_gt. lia.
Qed.

Lemma ascii_lower_idem s : ascii_lower (ascii_lower s) = ascii_lower s.
Proof.
  unfold ascii_lower. rewrite map_map.
  apply map_ext. intros c. apply ascii_lower_char_idem.
Qed.

(** The sample libraries around a given engine. *)
Definition sample_libs (engine : image -> result (list detection)) : Libs :=
  {| str_lower := ascii_lower;
     str_lower_idem := ascii_lower_idem;
     secure_filename := List.filter safe_char;
     imdecode_gray := pgm_decode;
     GaussianBlur5 := fun img => img;
     gaussian_mean := fun _ img y x => pixel_at img y x;
     readtext := engine;
     save_failure := name_too_long |}.

(** ** The normalizer *)

Section Normalizer.

Implicit Types (s t : pystr) (c : char) (b : bool).


Lemma printable_SP : printable SP = true.
Proof. reflexivity. Qed.

(** The space is the only whitespace character of the printable range. *)
Lemma printable_space_is_SP c :
  printable c = true -> is_space c = true -> c = SP.
Proof.
  unfold printable, is_space, SP.
  rewrite !orb_true_iff, !andb_true_iff, !N.leb_le, !N.eqb_eq. lia.
Qed.

Lemma nonprintable_not_kept c t :
  printable c = false -> remove_nonprintable (c :: t) = remove_nonprintable t.
Proof. unfold remove_nonprintable. simpl. by intros ->. Qed.

Lemma remove_nonprintable_app s t :
  remove_nonprintable (s ++ t) = remove_nonprintable s ++ remove_nonprintable t.
Proof. apply List.filter_app. Qed.

Lemma remove_nonprintable_printable s :
  Forall (fun c => printable c = true) (remove_nonprintable s).
Proof.
  unfold remove_nonprintable. induction s as [|c s IH]; simpl; [constructor|].
  destruct (printable c) eqn:E; [constructor|]; done.
Qed.

Lemma remove_nonprintable_id s :
  Forall (fun c => printable c = true) s -> remove_nonprintable s = s.
Proof.
  unfold remove_nonprintable.
  induction 1 as [|c s Hc _ IH]; simpl; [done|]. by rewrite Hc, IH.
Qed.

Lemma sub_ws_normal b s : normal_from b (sub_ws b s) = true.
Proof.
  revert b. induction s as [|c s IH]; intros b; simpl; [done|].
  destruct (is_space c) eqn:E.
  - destruct b; [apply IH|]. simpl. apply IH.
  - simpl. rewrite E. apply IH.
Qed.

Lemma normal_sub_ws b s : normal_from b s = true -> sub_ws b s = s.
Proof.
  revert b. induction s as [|c s IH]; intros b; simpl; [done|].
  destruct (is_space c) eqn:E.
  - rewrite !andb_true_iff, negb_true_iff, N.eqb_eq.
    intros [[-> ->] Hn]. by rewrite (IH _ Hn).
  - intros Hn. by rewrite (IH _ Hn).
Qed.

Lemma normal_from_weaken b s :
  normal_from b s = true -> normal_from false s = true.
Proof.
  destruct s as [|c s]; simpl; [done|].
  destruct (is_space c); [|done].
  rewrite !andb_true_iff. intros [[_ ->] ->]. done.
Qed.

Lemma lstrip_normal b s :
  normal_from b s = true -> normal_from false (lstrip s) = true.
Proof.
  revert b. induction s as [|c s IH]; intros b; simpl; [done|].
  destruct (is_space c) eqn:E.
  - rewrite !andb_true_iff. intros [_ Hn]. by apply (IH true).
  - simpl. by rewrite E.
Qed.

Lemma rstrip_normal b s :
  normal_from b s = true -> normal_from b (rstrip s) = true.
Proof.
  revert b. induction s as [|c s IH]; intros b; simpl; [done|].
  destruct (rstrip s) as [|d r] eqn:R.
  - destruct (is_space c) eqn:E; simpl; [done|]. by rewrite E.
  - simpl. destruct (is_space c) eqn:E.
    + rewrite !andb_true_iff. intros [Hb Hn].
      split; [done|]. by apply (IH true) in Hn.
    + intros Hn. by apply (IH false) in Hn.
Qed.

Lemma lstrip_starts_nonspace s : starts_nonspace (lstrip s).
Proof.
  induction s as [|c s IH]; simpl; [done|].
  destruct (is_space c) eqn:E; [done|]. simpl. done.
Qed.

Lemma starts_nonspace_lstrip s : starts_nonspace s -> lstrip s = s.
Proof. destruct s as [|c s]; simpl; [done|]. by intros ->. Qed.

Lemma rstrip_starts_nonspace s :
  starts_nonspace s -> starts_nonspace (rstrip s).
Proof.
  destruct s as [|c s]; simpl; [done|]. intros E.
  destruct (rstrip s); rewrite ?E; simpl; done.
Qed.

Lemma rstrip_idem s : rstrip (rstrip s) = rstrip s.
Proof.
  induction s as [|c s IH]; simpl; [done|].
  destruct (rstrip s) as [|d r] eqn:R.
  - destruct (is_space c) eqn:E; simpl; [done|]. by rewrite E.
  - change (rstrip (c :: d :: r)) with
      (match rstrip (d :: r) with
       | [] => if is_space c then [] else [c]
       | t' => c :: t'
       end).
    by rewrite IH.
Qed.

Lemma strip_fixed s : strip (strip s) = strip s.
Proof.
  unfold strip.
  rewrite (starts_nonspace_lstrip (rstrip (lstrip s))).
  - apply rstrip_idem.
  - apply rstrip_starts_nonspace, lstrip_starts_nonspace.
Qed.

Lemma sub_ws_Forall (P : char -> Prop) b s :
  P SP -> Forall P s -> Forall P (sub_ws b s).
Proof.
  intros HP Hs. revert b.
  induction Hs as [|c s Hc _ IH]; intros b; simpl; [constructor|].
  destruct (is_space c); [destruct b|]; try constructor; auto.
Qed.

Lemma lstrip_Forall (P : char -> Prop) s : Forall P s -> Forall P (lstrip s).
Proof.
  induction 1 as [|c s Hc Hs IH]; simpl; [constructor|].
  destruct (is_space c); [done|]. by constructor.
Qed.

Lemma rstrip_Forall (P : char -> Prop) s : Forall P s -> Forall P (rstrip s).
Proof.
  induction 1 as [|c s Hc Hs IH]; simpl; [constructor|].
  destruct (rstrip s) as [|d r].
  - destruct (is_space c); repeat constructor; done.
  - by constructor.
Qed.

Lemma clean_text_cleaned s : cleaned (clean_text s).
Proof.
  unfold clean_text, collapse_whitespace. split.
  - apply rstrip_Forall, lstrip_Forall, sub_ws_Forall;
      [reflexivity | apply remove_nonprintable_printable].
  - apply rstrip_normal, (lstrip_normal false), sub_ws_normal.
  - apply strip_fixed.
Qed.

Lemma cleaned_fixed s : cleaned s -> clean_text s = s.
Proof.
  intros [Hp Hn Hs]. unfold clean_text, collapse_whitespace.
  by rewrite (remove_nonprintable_id _ Hp), (normal_sub_ws _ _ Hn).
Qed.

End Normalizer.

Example clean_text_hello :
  clean_text (of_string "  HELLO    WORLD ") = of_string "HELLO WORLD".
Proof. reflexivity. Qed.

(** C8.  The normalizer is idempotent: cleaning a cleaned text changes
    nothing, [clean_text (clean_text s) = clean_text s] for every [s]. *)
Theorem clean_text_idempotent (s : pystr) :
  clean_text (clean_text s) = clean_text s.
Proof. apply cleaned_fixed, clean_text_cleaned. Qed.

(** ** Words and the whitespace between them *)

Section Words.

Implicit Types (s t w : pystr) (c : char) (b : bool).

Lemma word_char_printable c : word_char c = true -> printable c = true.
Proof. unfold word_char. rewrite andb_true_iff. tauto. Qed.

Lemma word_char_nonspace c : word_char c = true -> is_space c = false.
Proof. unfold word_char. rewrite andb_true_iff, negb_true_iff. tauto. Qed.

Lemma word_kept w :
  Forall (fun c => word_char c = true) w -> remove_nonprintable w = w.
Proof.
  intros Hw. apply remove_nonprintable_id.
  eapply Forall_impl; [exact Hw|]. apply word_char_printable.
Qed.

(** Of a run of whitespace, only the spaces survive the first substitution. *)
Lemma whitespace_kept sep :
  Forall (fun c => is_space c = true) sep ->
  Forall (fun c => c = SP) (remove_nonprintable sep) /\
  (remove_nonprintable sep = [] <-> contains SP sep = false).
Proof.
  unfold remove_nonprintable.
  induction 1 as [|c sep Hc _ [IH1 IH2]]; simpl; [by split|].
  destruct (printable c) eqn:E.
  - pose proof (printable_space_is_SP c E Hc) as ->. split.
    + by constructor.
    + simpl. split; discriminate.
  - split; [done|]. rewrite IH2.
    destruct (N.eqb_spec c SP) as [->|]; [done|]. done.
Qed.

Lemma sub_ws_word b w t :
  Forall (fun c => word_char c = true) w -> w <> [] ->
  sub_ws b (w ++ t) = w ++ sub_ws false t.
Proof.
  intros Hw. revert b.
  induction Hw as [|c w Hc Hw IH]; intros b Hne; [done|]. simpl.
  rewrite (word_char_nonspace _ Hc). f_equal.
  destruct w as [|d w]; [done|]. by apply IH.
Qed.

Lemma sub_ws_word_only b w :
  Forall (fun c => word_char c = true) w -> sub_ws b w = w.
Proof.
  intros Hw. destruct w as [|c w]; [done|].
  rewrite <- (app_nil_r (c :: w)) at 1.
  rewrite sub_ws_word by done. simpl. by rewrite app_nil_r.
Qed.

Lemma sub_ws_spaces sp t :
  Forall (fun c => c = SP) sp -> sub_ws true (sp ++ t) = sub_ws true t.
Proof. induction 1 as [|c sp -> _ IH]; simpl; done. Qed.

Lemma rstrip_word w : is_word w -> rstrip w = w.
Proof.
  intros [Hne Hw]. clear Hne.
  induction Hw as [|c w Hc Hw IH]; simpl; [done|]. rewrite IH.
  destruct w; [|done]. by rewrite (word_char_nonspace _ Hc).
Qed.

Lemma rstrip_app s t : rstrip t <> [] -> rstrip (s ++ t) = s ++ rstrip t.
Proof.
  intros Hne. induction s as [|c s IH]; simpl; [done|]. rewrite IH.
  destruct s as [|d s]; simpl; [|done]. by destruct (rstrip t).
Qed.

Lemma strip_between_words w1 s w2 :
  is_word w1 -> is_word w2 -> strip (w1 ++ s ++ w2) = w1 ++ s ++ w2.
Proof.
  intros [Hne1 Hw1] Hw2. unfold strip.
  rewrite starts_nonspace_lstrip.
  - rewrite !app_assoc. rewrite rstrip_app; rewrite (rstrip_word _ Hw2);
      [done | apply Hw2].
  - destruct w1 as [|c w1]; [done|]. simpl.
    apply word_char_nonspace. by inversion Hw1.
Qed.

End Words.

(** Between two printable words, a run of whitespace comes out as a single
    space when it has at least one space character (U+0020) in it, and as
    nothing at all otherwise: tabs, newlines and the other whitespace
    characters are outside 0x20-0x7E and are removed before runs are
    collapsed. *)
Lemma clean_text_between_words (w1 sep w2 : pystr) :
  is_word w1 -> is_word w2 ->
  Forall (fun c => is_space c = true) sep ->
  clean_text (w1 ++ sep ++ w2) =
  w1 ++ (if contains SP sep then [SP] else []) ++ w2.
Proof.
  intros Hw1 Hw2 Hsep.
  pose proof Hw1 as [Hne1 Hf1]. pose proof Hw2 as [Hne2 Hf2].
  destruct (whitespace_kept sep Hsep) as [Hsp Hnil].
  unfold clean_text, collapse_whitespace.
  rewrite !remove_nonprintable_app, (word_kept _ Hf1), (word_kept _ Hf2).
  rewrite sub_ws_word by done.
  destruct (remove_nonprintable sep) as [|c sp] eqn:R.
  - rewrite (proj1 Hnil eq_refl). simpl.
    rewrite (sub_ws_word_only _ _ Hf2).
    by apply (strip_between_words w1 [] w2).
  - destruct (contains SP sep) eqn:C;
      [|by pose proof (proj2 Hnil eq_refl)].
    inversion Hsp as [|? ? -> Hsp']; subst. simpl.
    rewrite sub_ws_spaces by done.
    rewrite (sub_ws_word_only _ _ Hf2).
    by apply (strip_between_words w1 [SP] w2).
Qed.

Example clean_text_hello_tab_world :
  clean_text (of_string "HELLO" ++ [9; SP; 10] ++ of_string "WORLD")
  = of_string "HELLO WORLD".
Proof.
  apply (clean_text_between_words (of_string "HELLO") [9; SP; 10]
           (of_string "WORLD")).
  - split; [discriminate|]. repeat constructor.
  - split; [discriminate|]. repeat constructor.
  - repeat constructor.
Defined.


(** ** The extension check *)

Section Extension.

Context `{Libs} (cfg : config).
Implicit Types (s a b : pystr) (c : char).

Lemma rsplit_last_None c s :
  rsplit_last c s = None <-> contains c s = false.
Proof.
  induction s as [|x s IH]; simpl; [done|].
  destruct (rsplit_last c s) as [[a b]|].
  - split; [done|]. rewrite orb_false_iff. intros [_ Hc].
    apply IH in Hc. done.
  - destruct (x =? c); simpl; [done|]. by rewrite <- IH.
Qed.

(** [rsplit_last] cuts at the last occurrence. *)
Lemma rsplit_last_Some c s a b :
  rsplit_last c s = Some (a, b) <-> s = a ++ c :: b /\ contains c b = false.
Proof.
  revert a. induction s as [|x s IH]; intros a; simpl.
  - split; [done|]. intros [E _]. by destruct a.
  - destruct (rsplit_last c s) as [[a' b']|] eqn:R.
    + split.
      * intros [= <- <-]. destruct (proj1 (IH a') eq_refl) as [-> Hb]. done.
      * intros [E Hb]. destruct a as [|y a]; simpl in E.
        -- injection E as -> ->. apply rsplit_last_None in Hb. congruence.
        -- injection E as -> E.
           assert (Some (a', b') = Some (a, b)) as [= -> ->]; [|done].
           by apply IH.
    + apply rsplit_last_None in R. split.
      * destruct (N.eqb_spec x c) as [->|]; [|done].
        intros [= <- <-]. split; done.
      * intros [E Hb]. destruct a as [|y a]; simpl in E.
        -- injection E as -> ->. by rewrite N.eqb_refl.
        -- injection E as -> ->.
           by pose proof (proj2 (IH a) (conj eq_refl Hb)).
Qed.

Lemma extension_Some filename ext :
  extension filename = Some ext <->
  exists stem, filename = stem ++ DOT :: ext /\ contains DOT ext = false.
Proof.
  unfold extension. split.
  - destruct (rsplit_last DOT filename) as [[a b]|] eqn:R; [|done].
    intros [= <-]. exists a. by apply rsplit_last_Some.
  - intros [stem Hs]. apply rsplit_last_Some in Hs. by rewrite Hs.
Qed.

Lemma extension_None filename :
  extension filename = None <-> contains DOT filename = false.
Proof.
  unfold extension. rewrite <- rsplit_last_None.
  destruct (rsplit_last DOT filename); simpl; split; done.
Qed.

(** What [allowed_file] computes, in terms of the extension. *)
Lemma allowed_file_extension filename :
  allowed_file cfg filename =
  inr match extension filename with
      | Some ext => bool_decide (str_lower ext ∈ ALLOWED_EXTENSIONS cfg)
      | None => false
      end.
Proof.
  unfold allowed_file, extension, rsplit1.
  destruct (rsplit_last DOT filename) as [[a b]|] eqn:R; simpl.
  - destruct (contains DOT filename) eqn:C; [done|].
    apply rsplit_last_None in C. congruence.
  - apply rsplit_last_None in R. by rewrite R.
Qed.

Lemma allowed_file_true filename :
  allowed_file cfg filename = inr true <->
  exists ext, extension filename = Some ext /\
              str_lower ext ∈ ALLOWED_EXTENSIONS cfg.
Proof.
  rewrite allowed_file_extension. split.
  - destruct (extension filename) as [ext|]; [|done].
    intros [= Hb]. apply bool_decide_eq_true in Hb. eauto.
  - intros (ext & -> & Hin). by rewrite bool_decide_eq_true_2.
Qed.

(** An extension that matches no entry, whatever the letter case, is not
    accepted. *)
Lemma allowed_file_outside filename :
  (forall ext e, extension filename = Some ext ->
                 e ∈ ALLOWED_EXTENSIONS cfg -> ~ same_ignoring_case ext e) ->
  allowed_file cfg filename = inr false.
Proof.
  intros Hout. rewrite allowed_file_extension.
  destruct (extension filename) as [ext|] eqn:E; [|done].
  rewrite bool_decide_eq_false_2; [done|]. intros Hin.
  apply (Hout ext (str_lower ext) eq_refl Hin).
  unfold same_ignoring_case. by rewrite str_lower_idem.
Qed.

End Extension.

(** ** The pipeline *)

Section Pipeline.

Context `{Libs}.
Implicit Types (w : world) (path : pystr) (img : image).

Lemma adaptiveThreshold_binarized img blockSize C :
  binarized (adaptiveThreshold img 255 blockSize C).
Proof.
  unfold binarized, adaptiveThreshold.
  apply list.Forall_forall. intros row Hrow.
  apply elem_of_lookup_imap in Hrow as (y & r & -> & _).
  apply list.Forall_forall. intros p Hp.
  apply elem_of_lookup_imap in Hp as (x & q & -> & _).
  destruct (_ <? _)%Z; auto.
Qed.

Lemma adaptiveThreshold_rows img maxValue blockSize C :
  length (adaptiveThreshold img maxValue blockSize C) = length img.
Proof. unfold adaptiveThreshold. apply length_imap. Qed.

Lemma preprocess_image_missing path w :
  imread (fs w) path = None ->
  preprocess_image path w =
  (World (fs w) (log w ++ [EvPreprocess path]),
   inl (FileNotFoundError (image_not_found path))).
Proof. intros E. run. by rewrite E. Qed.

Lemma preprocess_image_decoded path w img :
  imread (fs w) path = Some img ->
  preprocess_image path w =
  (World (fs w) (log w ++ [EvPreprocess path]),
   inr (adaptiveThreshold (GaussianBlur5 img) 255 11 2)).
Proof. intros E. run. by rewrite E. Qed.

Lemma fold_sep_prefix sep (p u : pystr) (rest : list pystr) :
  p ++ fold_left (fun acc x => acc ++ sep ++ x) rest u =
  fold_left (fun acc x => acc ++ sep ++ x) rest (p ++ u).
Proof.
  revert u. induction rest as [|v rest IH]; intros u; simpl; [done|].
  by rewrite IH, <- app_assoc.
Qed.

Lemma join_fold sep (t : pystr) (rest : list pystr) :
  join sep (t :: rest) = fold_left (fun acc x => acc ++ sep ++ x) rest t.
Proof.
  revert t. induction rest as [|u rest IH]; intros t; [done|].
  change (join sep (t :: u :: rest)) with (t ++ sep ++ join sep (u :: rest)).
  rewrite IH. simpl.
  by rewrite (app_assoc t sep), fold_sep_prefix, <- app_assoc.
Qed.

Lemma raw_text_spec (dets : list detection) :
  raw_text dets = joined_by_single_spaces (map det_text dets).
Proof.
  unfold raw_text, joined_by_single_spaces.
  destruct (map det_text dets) as [|t rest]; [done|]. apply join_fold.
Qed.

End Pipeline.

Lemma adaptiveThreshold_thresholded `{Libs} (src : image) (maxValue : Z)
    (blockSize : nat) (C : Z) :
  thresholded src (adaptiveThreshold src maxValue blockSize C) maxValue
    blockSize C.
Proof.
  unfold thresholded, adaptiveThreshold, pixel. split.
  - apply list_eq. intros y.
    rewrite !list_lookup_fmap, list_lookup_imap.
    destruct (src !! y) as [row|]; simpl; [|done]. by rewrite length_imap.
  - intros y x p. rewrite list_lookup_imap.
    destruct (src !! y) as [row|]; simpl; [|done].
    rewrite list_lookup_imap. by intros ->.
Qed.

(** C6.  [preprocess_image] raises [FileNotFoundError] exactly when the
    decoder returns no data for the path (no such file, or content that does
    not decode); when the decoder returns an image, [preprocess_image]
    returns without raising, and what it returns is binarized: it is the
    blurred image thresholded, with the rows and columns of the blurred
    image (those of the decoded image when the blur keeps them), each pixel
    255 where the blurred pixel is above the mean of its 11-pixel
    neighbourhood minus 2 and 0 elsewhere. *)
Theorem preprocess_image_outcome `{Libs} (image_path : pystr) (w : world) :
  (imread (fs w) image_path = None <->
   exists msg, (preprocess_image image_path w).2 = inl (FileNotFoundError msg))
  /\
  (forall e, (preprocess_image image_path w).2 = inl e ->
             imread (fs w) image_path = None)
  /\
  (imread (fs w) image_path <> None <->
   exists out, (preprocess_image image_path w).2 = inr out /\ binarized out)
  /\
  (forall img,
     imread (fs w) image_path = Some img ->
     exists out,
       (preprocess_image image_path w).2 = inr out /\
       binarized out /\
       thresholded (GaussianBlur5 img) out 255 11 2 /\
       (map length (GaussianBlur5 img) = map length img ->
        map length out = map length img)).
Proof.
  destruct (imread (fs w) image_path) as [img|] eqn:E.
  - rewrite (preprocess_image_decoded _ _ _ E). simpl.
    split; [|split; [|split]].
    + split; [done|]. by intros [msg ?].
    + done.
    + split; [|done].
      intros _. eexists. split; [done|]. apply adaptiveThreshold_binarized.
    + intros ? [= <-]. eexists. split; [done|].
      split; [apply adaptiveThreshold_binarized|].
      split; [apply adaptiveThreshold_thresholded|].
      intros <-. apply adaptiveThreshold_thresholded.
  - rewrite (preprocess_image_missing _ _ E). simpl.
    split; [|split; [|split]].
    + split; [eauto|done].
    + done.
    + split; [done|]. by intros [out [? _]].
    + done.
Qed.

Lemma preprocess_image_outcome_witness :
  let H := sample_libs two_words in
  let w := World {[ of_string "note.jpg" := one_pixel_pgm 7 ]} [] in
  exists out,
    (preprocess_image (of_string "note.jpg") w).2 = inr out /\
    binarized out /\
    thresholded [[7%Z]] out 255 11 2 /\
    (map length [[7%Z]] = map length [[7%Z]] ->
     map length out = map length [[7%Z]]).
Proof.
  intros H w.
  assert (imread (fs w) (of_string "note.jpg") = Some [[7%Z]]) as Himg.
  { unfold imread, w. simpl fs. rewrite lookup_singleton_eq. reflexivity. }
  exact (proj2 (proj2 (proj2 (preprocess_image_outcome (of_string "note.jpg")
                                w)))
           [[7%Z]] Himg).
Defined.

(** C9.  When the image decodes and the engine returns its detections, the
    string handed to [clean_text] is the transcribed strings of the
    detections, in detection order, with a single space between consecutive
    ones; bounding boxes and confidences play no part. *)
Theorem raw_text_joined_in_order `{Libs} (image_path : pystr) (w : world)
    (img : image) (dets : list detection) :
  imread (fs w) image_path = Some img ->
  readtext (adaptiveThreshold (GaussianBlur5 img) 255 11 2) = inr dets ->
  raw_text dets = joined_by_single_spaces (map det_text dets) /\
  (extract_text_from_image image_path w).2 =
  inr (clean_text (joined_by_single_spaces (map det_text dets))).
Proof.
  intros Himg Hdets. split; [apply raw_text_spec|].
  run. rewrite Himg. simpl. rewrite Hdets. simpl.
  by rewrite raw_text_spec.
Qed.

Lemma raw_text_joined_in_order_witness :
  let H := sample_libs two_words in
  let w := World {[ of_string "note.jpg" := one_pixel_pgm 7 ]} [] in
  (extract_text_from_image (of_string "note.jpg") w).2 =
  inr (of_string "HELLO WORLD").
Proof.
  intros H w.
  refine (proj2 (raw_text_joined_in_order (of_string "note.jpg") w [[7%Z]]
                   hello_world _ _)).
  - unfold imread, w. simpl fs. rewrite lookup_singleton_eq. reflexivity.
  - reflexivity.
Defined.

(** ** The request handler *)

Section Handler.

Context `{Libs} (cfg : config).
Implicit Types (w : world) (req : request) (file : FileStorage).

Lemma handler_no_file req w :
  files req !! "file"%string = None ->
  extract_text cfg req w = (w, inr (error_response "No file part in request")).
Proof. intros E. unfold extract_text. by rewrite E. Qed.

Lemma handler_empty_name req file w :
  files req !! "file"%string = Some file -> filename file = [] ->
  extract_text cfg req w = (w, inr (error_response "No selected file")).
Proof. intros E E'. unfold extract_text. by rewrite E, E'. Qed.

Lemma handler_rejected req file w :
  files req !! "file"%string = Some file -> filename file <> [] ->
  allowed_file cfg (filename file) = inr false ->
  extract_text cfg req w = (w, inr (error_response "Unsupported file type")).
Proof.
  intros E Hne Hno. unfold extract_text. rewrite E.
  rewrite bool_decide_eq_false_2 by done. run. by rewrite Hno.
Qed.

Lemma imread_saved file w :
  imread (fs (saved cfg file w)) (temp_path cfg file)
  = imdecode_gray (stream file).
Proof. unfold imread, saved. simpl. by rewrite lookup_insert_eq. Qed.

(** The upload does not decode: [preprocess_image] raises and nothing
    catches it. *)
Lemma handler_undecodable req file w :
  accepted cfg req file -> save_succeeds cfg file w ->
  imdecode_gray (stream file) = None ->
  extract_text cfg req w =
  (saved cfg file w,
   inl (FileNotFoundError (image_not_found (temp_path cfg file)))).
Proof.
  intros Hacc Hsave Hdec. pose proof (imread_saved file w) as Hrd.
  rewrite Hdec in Hrd. enter_pipeline Hacc Hsave Hrd. done.
Qed.

(** The engine raises: nothing catches it either. *)
Lemma handler_engine_raises req file w img e :
  accepted cfg req file -> save_succeeds cfg file w ->
  imdecode_gray (stream file) = Some img ->
  readtext (adaptiveThreshold (GaussianBlur5 img) 255 11 2) = inl e ->
  extract_text cfg req w =
  (World (fs (saved cfg file w))
         (log (saved cfg file w) ++
          [EvReadtext (adaptiveThreshold (GaussianBlur5 img) 255 11 2)]),
   inl e).
Proof.
  intros Hacc Hsave Hdec Hrt. pose proof (imread_saved file w) as Hrd.
  rewrite Hdec in Hrd. enter_pipeline Hacc Hsave Hrd. by rewrite Hrt.
Qed.

(** The whole pipeline succeeds. *)
Lemma handler_success req file w img dets :
  accepted cfg req file -> save_succeeds cfg file w ->
  imdecode_gray (stream file) = Some img ->
  readtext (adaptiveThreshold (GaussianBlur5 img) 255 11 2) = inr dets ->
  extract_text cfg req w =
  (World (delete (temp_path cfg file) (fs (saved cfg file w)))
         (log (saved cfg file w) ++
          [EvReadtext (adaptiveThreshold (GaussianBlur5 img) 255 11 2);
           EvRemove (temp_path cfg file)]),
   inr (jsonify [("extracted_text"%string, clean_text (raw_text dets))] 200)).
Proof.
  intros Hacc Hsave Hdec Hrt. pose proof (imread_saved file w) as Hrd.
  rewrite Hdec in Hrd. enter_pipeline Hacc Hsave Hrd. rewrite Hrt. simpl.
  rewrite lookup_insert_eq. by rewrite <- app_assoc.
Qed.

(** The upload cannot be written: [file.save] raises and nothing catches
    it. *)
Lemma handler_save_fails req file w e partial :
  accepted cfg req file ->
  save_failure (fs w) (temp_path cfg file) (stream file) = Some (e, partial) ->
  (extract_text cfg req w).2 = inl e.
Proof.
  intros (E & Hne & Hok) Hsave. unfold extract_text. rewrite E.
  rewrite bool_decide_eq_false_2 by done.
  revert Hsave. unfold temp_path. run. rewrite Hok. simpl. intros ->.
  by destruct partial.
Qed.

End Handler.

Section Calls.

Context `{Libs} (cfg : config).
Implicit Types (w : world) (req : request) (file : FileStorage).

Lemma not_called_unchanged e w : ~ called e w w.
Proof.
  intros (before & after & E).
  apply (f_equal length) in E. rewrite !length_app in E. simpl in E. lia.
Qed.

Lemma allowed_file_total filename :
  exists b, allowed_file cfg filename = inr b.
Proof. rewrite allowed_file_extension. eauto. Qed.

(** Whoever reaches [preprocess_image] passed the three checks. *)
Lemma preprocessed_was_accepted req w p :
  called (EvPreprocess p) w (extract_text cfg req w).1 ->
  exists file, accepted cfg req file.
Proof.
  intros Hc.
  destruct (files req !! "file"%string) as [file|] eqn:E.
  - destruct (decide (filename file = [])) as [Hn|Hn].
    + rewrite (handler_empty_name cfg req file w E Hn) in Hc.
      by apply not_called_unchanged in Hc.
    + destruct (allowed_file_total (filename file)) as [[] Hb].
      * by exists file.
      * rewrite (handler_rejected cfg req file w E Hn Hb) in Hc.
        by apply not_called_unchanged in Hc.
  - rewrite (handler_no_file cfg req w E) in Hc.
    by apply not_called_unchanged in Hc.
Qed.

End Calls.

Lemma default_allowed (e : pystr) :
  e ∈ ALLOWED_EXTENSIONS default_config <->
  e = of_string "jpg" \/ e = of_string "jpeg" \/ e = of_string "png".
Proof.
  unfold default_config, load_config, getenv, ALLOWED_EXTENSIONS.
  rewrite lookup_empty, elem_of_list_to_set.
  change (split COMMA (default (of_string "jpg,jpeg,png") None))
    with [of_string "jpg"; of_string "jpeg"; of_string "png"].
  rewrite !elem_of_cons, elem_of_nil. tauto.
Qed.

(** C4.  A request without a ['file'] field is answered with status 400 and
    the body [{"error": "No file part in request"}], in the world it arrived
    in: nothing is written to the upload directory (or anywhere else). *)
Theorem missing_file_field `{Libs} (cfg : config) (req : request) (w : world) :
  files req !! "file"%string = None ->
  extract_text cfg req w =
  (w, inr (Response 400
             [("error"%string, of_string "No file part in request")])).
Proof. apply handler_no_file. Qed.

Lemma missing_file_field_witness :
  let H := sample_libs two_words in
  let req := {| files := {[ "image"%string :=
                   {| filename := of_string "note.jpg"; stream := one_pixel_pgm 7 |} ]} |}
  in
  files req !! "file"%string = None /\
  extract_text default_config req empty_world =
  (empty_world,
   inr (Response 400
          [("error"%string, of_string "No file part in request")])).
Proof.
  intros H req.
  assert (files req !! "file"%string = None) as E by done.
  split; [exact E|]. exact (missing_file_field default_config req empty_world E).
Defined.

(** C3.  A request whose file has an extension that matches no entry of the
    allow-set, whatever the letter case, is answered with status 400 in the
    world it arrived in: [preprocess_image] is not called and the engine is
    not called.  Put the other way round: when [preprocess_image] is called
    for a request, the file of that request has an extension whose
    lower-case form is in the allow-set. *)
Theorem only_allowed_uploads_preprocessed `{Libs} (cfg : config)
    (req : request) (w : world) :
  (forall file,
     files req !! "file"%string = Some file ->
     (forall ext e, extension (filename file) = Some ext ->
                    e ∈ ALLOWED_EXTENSIONS cfg -> ~ same_ignoring_case ext e) ->
     (exists msg, extract_text cfg req w
                  = (w, inr (Response 400 [("error"%string, msg)]))) /\
     (forall p, ~ called (EvPreprocess p) w (extract_text cfg req w).1) /\
     (forall img, ~ called (EvReadtext img) w (extract_text cfg req w).1))
  /\
  (forall p,
     called (EvPreprocess p) w (extract_text cfg req w).1 ->
     exists file ext,
       files req !! "file"%string = Some file /\
       extension (filename file) = Some ext /\
       str_lower ext ∈ ALLOWED_EXTENSIONS cfg).
Proof.
  split.
  - intros file E Hout.
    assert (exists msg, extract_text cfg req w
                        = (w, inr (Response 400 [("error"%string, msg)])))
      as [msg Hrun].
    { destruct (decide (filename file = [])) as [Hn|Hn].
      - eexists. by apply (handler_empty_name cfg req file).
      - eexists. apply (handler_rejected cfg req file); [done..|].
        by apply allowed_file_outside. }
    rewrite Hrun. simpl. repeat split.
    + by exists msg.
    + intros p. apply not_called_unchanged.
    + intros img. apply not_called_unchanged.
  - intros p Hc.
    destruct (preprocessed_was_accepted cfg req w p Hc)
      as (file & E & _ & Hok).
    apply allowed_file_true in Hok as (ext & Hext & Hin).
    by exists file, ext.
Qed.

Lemma only_allowed_uploads_preprocessed_witness :
  let H := sample_libs two_words in
  let req := upload "data.txt" [7] in
  (exists msg, extract_text default_config req empty_world
               = (empty_world, inr (Response 400 [("error"%string, msg)]))) /\
  (forall p, ~ called (EvPreprocess p) empty_world
               (extract_text default_config req empty_world).1) /\
  (forall img, ~ called (EvReadtext img) empty_world
                 (extract_text default_config req empty_world).1).
Proof.
  intros H req.
  apply (proj1 (only_allowed_uploads_preprocessed default_config req
                  empty_world)
           {| filename := of_string "data.txt"; stream := [7] |}).
  - vm_compute. reflexivity.
  - intros ext e [= <-] He Hsame. apply default_allowed in He.
    destruct He as [->|[->| ->]]; vm_compute in Hsame; discriminate Hsame.
Defined.

(** The letter case of the file name does not matter: a name whose
    extension equals, up to letter case, an entry of the allow-set that is
    written in lower case is accepted. *)
Lemma allowed_file_ignores_filename_case `{Libs} (cfg : config)
    (filename ext e : pystr) :
  extension filename = Some ext ->
  e ∈ ALLOWED_EXTENSIONS cfg ->
  str_lower e = e ->
  same_ignoring_case ext e ->
  allowed_file cfg filename = inr true.
Proof.
  intros Hext Hin Hlow Hsame. apply allowed_file_true.
  exists ext. split; [done|].
  unfold same_ignoring_case in Hsame. by rewrite Hsame, Hlow.
Qed.

(** An entry of the allow-set that is not its own lower-case form accepts
    no file name. *)
Lemma upper_case_entry_accepts_nothing `{Libs} (cfg : config)
    (filename : pystr) :
  (forall e, e ∈ ALLOWED_EXTENSIONS cfg -> str_lower e <> e) ->
  allowed_file cfg filename = inr false.
Proof.
  intros Hup. rewrite allowed_file_extension.
  destruct (extension filename) as [ext|]; [|done].
  rewrite bool_decide_eq_false_2; [done|]. intros Hin.
  apply (Hup _ Hin). apply str_lower_idem.
Qed.

(** C5.  With [ALLOWED_EXTENSIONS=JPG,PNG] the extension of [note.jpg] and
    of [note.JPG] equals the entry [JPG] up to letter case, and yet
    [allowed_file] rejects both names, and the upload of an image as
    [note.jpg] is answered with [{"error": "Unsupported file type"}]: the
    extension of the name is lower-cased, the entries of the allow-set are
    not. *)
Theorem upper_case_entry_never_matches :
  let H := sample_libs two_words in
  of_string "JPG" ∈ ALLOWED_EXTENSIONS upper_case_config /\
  extension (of_string "note.jpg") = Some (of_string "jpg") /\
  same_ignoring_case (of_string "jpg") (of_string "JPG") /\
  allowed_file upper_case_config (of_string "note.jpg") = inr false /\
  extension (of_string "note.JPG") = Some (of_string "JPG") /\
  allowed_file upper_case_config (of_string "note.JPG") = inr false /\
  extract_text upper_case_config (upload "note.jpg" (one_pixel_pgm 7))
    empty_world =
  (empty_world,
   inr (Response 400 [("error"%string, of_string "Unsupported file type")]))
  /\
  ~ (forall filename ext e,
       extension filename = Some ext ->
       e ∈ ALLOWED_EXTENSIONS upper_case_config ->
       same_ignoring_case ext e ->
       allowed_file upper_case_config filename = inr true).
Proof.
  intros H. repeat split; try (vm_compute; reflexivity).
  intros Hclaim.
  specialize (Hclaim (of_string "note.jpg") (of_string "jpg")
                (of_string "JPG")).
  vm_compute in Hclaim.
  by specialize (Hclaim eq_refl eq_refl eq_refl).
Qed.

(** C10 (as the code has it).  [allowed_file] returns a boolean for every
    file name and never raises; the indexing [rsplit('.', 1)[1]] is in range
    whenever the name has a ['.']; a name without ['.'] is not allowed, and
    an upload with such a name, when the name is not empty, is answered with
    status 400 and [{"error": "Unsupported file type"}] in the world the
    request arrived in. *)
Theorem allowed_file_total_and_dotless `{Libs} (cfg : config) :
  (forall filename, exists b, allowed_file cfg filename = inr b) /\
  (forall filename, contains DOT filename = true ->
                    exists ext, index (rsplit1 DOT filename) 1 = inr ext) /\
  (forall filename, contains DOT filename = false ->
                    allowed_file cfg filename = inr false) /\
  (forall req file w,
     files req !! "file"%string = Some file ->
     filename file <> [] ->
     contains DOT (filename file) = false ->
     extract_text cfg req w =
     (w, inr (Response 400
                [("error"%string, of_string "Unsupported file type")]))).
Proof.
  assert (forall filename, contains DOT filename = false ->
                           allowed_file cfg filename = inr false) as Hdot.
  { intros filename Hc. rewrite allowed_file_extension.
    apply extension_None in Hc. by rewrite Hc. }
  repeat split.
  - apply allowed_file_total.
  - intros filename Hc. unfold rsplit1.
    destruct (rsplit_last DOT filename) as [[a b]|] eqn:R; [by exists b|].
    apply rsplit_last_None in R. congruence.
  - exact Hdot.
  - intros req file w E Hne Hc.
    apply (handler_rejected cfg req file w E Hne). by apply Hdot.
Qed.

Lemma allowed_file_total_and_dotless_witness :
  let H := sample_libs two_words in
  extract_text default_config (upload "README" [7]) empty_world =
  (empty_world,
   inr (Response 400 [("error"%string, of_string "Unsupported file type")])).
Proof.
  intros H.
  apply (proj2 (proj2 (proj2 (allowed_file_total_and_dotless default_config)))
           (upload "README" [7])
           {| filename := of_string "README"; stream := [7] |} empty_world).
  - vm_compute. reflexivity.
  - discriminate.
  - reflexivity.
Defined.

(** C10 (as stated) fails for the empty file name: it has no ['.'], and the
    upload is answered with [{"error": "No selected file"}]. *)
Lemma empty_filename_counterexample :
  let H := sample_libs two_words in
  contains DOT (of_string "") = false /\
  files (upload "" [7]) !! "file"%string
    = Some {| filename := of_string ""; stream := [7] |} /\
  extract_text default_config (upload "" [7]) empty_world =
  (empty_world,
   inr (Response 400 [("error"%string, of_string "No selected file")])) /\
  extract_text default_config (upload "" [7]) empty_world <>
  (empty_world,
   inr (Response 400 [("error"%string, of_string "Unsupported file type")])).
Proof.
  intros H. repeat split; try (vm_compute; reflexivity).
  vm_compute. discriminate.
Qed.

(** ** The temporary file *)

Section TempFile.

Context `{Libs} (cfg : config).
Implicit Types (w : world) (req : request) (file : FileStorage).

(** On the path on which everything succeeds the upload is removed before
    the response is returned. *)
Lemma temp_file_removed_on_success req file w img dets :
  accepted cfg req file -> save_succeeds cfg file w ->
  imdecode_gray (stream file) = Some img ->
  readtext (adaptiveThreshold (GaussianBlur5 img) 255 11 2) = inr dets ->
  (extract_text cfg req w).2 =
    inr (Response 200
           [("extracted_text"%string, clean_text (raw_text dets))]) /\
  fs (extract_text cfg req w).1 !! temp_path cfg file = None.
Proof.
  intros Hacc Hsave Hdec Hrt.
  rewrite (handler_success cfg req file w img dets Hacc Hsave Hdec Hrt). simpl.
  split; [done|]. apply lookup_delete_eq.
Qed.

(** When [preprocess_image] raises, [os.remove] is not reached. *)
Lemma temp_file_left_when_undecodable req file w :
  accepted cfg req file -> save_succeeds cfg file w ->
  imdecode_gray (stream file) = None ->
  fs (extract_text cfg req w).1 !! temp_path cfg file = Some (stream file).
Proof.
  intros Hacc Hsave Hdec.
  rewrite (handler_undecodable cfg req file w Hacc Hsave Hdec).
  simpl. apply lookup_insert_eq.
Qed.

(** Nor is it when the engine raises. *)
Lemma temp_file_left_when_engine_raises req file w img e :
  accepted cfg req file -> save_succeeds cfg file w ->
  imdecode_gray (stream file) = Some img ->
  readtext (adaptiveThreshold (GaussianBlur5 img) 255 11 2) = inl e ->
  fs (extract_text cfg req w).1 !! temp_path cfg file = Some (stream file).
Proof.
  intros Hacc Hsave Hdec Hrt.
  rewrite (handler_engine_raises cfg req file w img e Hacc Hsave Hdec Hrt).
  simpl. apply lookup_insert_eq.
Qed.

End TempFile.

(** C1, on the failure path.  An empty file uploaded as [note.jpg] is
    accepted and saved as [app/uploads/note.jpg]; it does not decode,
    [preprocess_image] raises, the exception leaves the handler, and the
    temporary file is still in the upload directory afterwards. *)
Theorem temp_file_left_after_failure :
  let H := sample_libs two_words in
  let file := {| filename := of_string "note.jpg"; stream := [] |} in
  let req := upload "note.jpg" [] in
  let after := extract_text default_config req empty_world in
  accepted default_config req file /\
  temp_path default_config file = of_string "app/uploads/note.jpg" /\
  after.2 = inl (FileNotFoundError
                   (of_string "Image not found: app/uploads/note.jpg")) /\
  fs after.1 !! of_string "app/uploads/note.jpg" = Some [] /\
  log after.1 = [EvSave (of_string "app/uploads/note.jpg");
                 EvPreprocess (of_string "app/uploads/note.jpg")].
Proof.
  intros H file req after.
  assert (accepted default_config req file) as Hacc.
  { accept. }
  split; [exact Hacc|]. split; [reflexivity|].
  unfold after.
  rewrite (handler_undecodable default_config req file empty_world Hacc
             eq_refl eq_refl).
  repeat split.
Qed.

(** When the engine call of an accepted request raises, the handler does
    not catch the exception: it leaves [extract_text] as it was raised, after
    a single engine call. *)
Lemma engine_fault_propagates `{Libs} (cfg : config) (req : request)
    (file : FileStorage) (w : world) (img : image) (e : exn) :
  accepted cfg req file ->
  save_succeeds cfg file w ->
  imdecode_gray (stream file) = Some img ->
  readtext (adaptiveThreshold (GaussianBlur5 img) 255 11 2) = inl e ->
  (extract_text cfg req w).2 = inl e /\
  log (extract_text cfg req w).1 =
    log w ++ [EvSave (temp_path cfg file);
              EvPreprocess (temp_path cfg file);
              EvReadtext (adaptiveThreshold (GaussianBlur5 img) 255 11 2)].
Proof.
  intros Hacc Hsave Hdec Hrt.
  rewrite (handler_engine_raises cfg req file w img e Hacc Hsave Hdec Hrt).
  simpl. split; [done|]. by rewrite <- app_assoc.
Qed.

(** C7.  A one-pixel PGM image uploaded as [note.jpg] is accepted, saved and
    decoded; the engine raises on it; the handler does not catch the
    exception, which leaves [extract_text] as it was raised after a single
    engine call: the handler returns no response, so none of status 5xx with
    an error body. *)
Theorem engine_fault_not_answered :
  let H := sample_libs failing_engine in
  let file := {| filename := of_string "note.jpg";
                 stream := one_pixel_pgm 7 |} in
  let req := upload "note.jpg" (one_pixel_pgm 7) in
  let after := extract_text default_config req empty_world in
  accepted default_config req file /\
  imdecode_gray (stream file) = Some [[7%Z]] /\
  readtext (adaptiveThreshold (GaussianBlur5 [[7%Z]]) 255 11 2)
    = inl (EngineError 1) /\
  after.2 = inl (EngineError 1) /\
  log after.1 = [EvSave (of_string "app/uploads/note.jpg");
                 EvPreprocess (of_string "app/uploads/note.jpg");
                 EvReadtext [[255%Z]]] /\
  ~ exists resp, after.2 = inr resp /\ 500 <= status resp < 600.
Proof.
  intros H file req after.
  assert (accepted default_config req file) as Hacc by accept.
  destruct (engine_fault_propagates default_config req file empty_world
              [[7%Z]] (EngineError 1) Hacc eq_refl eq_refl eq_refl)
    as [Hres Hlog].
  split; [exact Hacc|]. split; [reflexivity|]. split; [reflexivity|].
  split; [exact Hres|]. split; [exact Hlog|].
  intros (resp & Hresp & _). unfold after in Hresp. congruence.
Qed.

(** * Further properties of the normalizer *)

Section NormalizerShape.

Implicit Types (s t a r : pystr) (c : char) (b : bool).

Lemma normal_from_no_double_space b a r :
  normal_from b (a ++ SP :: SP :: r) = false.
Proof.
  revert b. induction a as [|c a IH]; intros b; simpl.
  - by rewrite andb_false_r.
  - destruct (is_space c); [|apply IH]. by rewrite IH, andb_false_r.
Qed.

Lemma rstrip_last_nonspace s c : last (rstrip s) = Some c -> is_space c = false.
Proof.
  induction s as [|x s IH]; simpl; [done|].
  destruct (rstrip s) as [|d r].
  - destruct (is_space x) eqn:E; simpl; [done|]. by intros [= <-].
  - simpl. exact IH.
Qed.

Lemma remove_nonprintable_sublist s : remove_nonprintable s `sublist_of` s.
Proof.
  unfold remove_nonprintable. induction s as [|c s IH]; simpl; [done|].
  destruct (printable c); by constructor.
Qed.

(** On printable text the second substitution only deletes: the space it
    writes for a run is the first character of the run. *)
Lemma sub_ws_sublist b s :
  Forall (fun c => printable c = true) s -> sub_ws b s `sublist_of` s.
Proof.
  intros Hs. revert b.
  induction Hs as [|c s Hc _ IH]; intros b; simpl; [done|].
  destruct (is_space c) eqn:E.
  - rewrite (printable_space_is_SP c Hc E).
    destruct b; by constructor.
  - by constructor.
Qed.

Lemma lstrip_sublist s : lstrip s `sublist_of` s.
Proof.
  induction s as [|c s IH]; simpl; [done|].
  destruct (is_space c); [by constructor|done].
Qed.

Lemma rstrip_sublist s : rstrip s `sublist_of` s.
Proof.
  induction s as [|c s IH]; simpl; [done|].
  destruct (rstrip s) as [|d r].
  - destruct (is_space c); [apply sublist_nil_l|].
    constructor. apply sublist_nil_l.
  - by constructor.
Qed.

Lemma word_char_not_space c : is_space c = true -> word_char c = false.
Proof. unfold word_char. intros ->. apply andb_false_r. Qed.

Lemma words_of_remove_nonprintable s :
  List.filter word_char (remove_nonprintable s) = List.filter word_char s.
Proof.
  unfold remove_nonprintable. induction s as [|c s IH]; simpl; [done|].
  destruct (printable c) eqn:E; simpl; rewrite IH; [done|].
  unfold word_char. by rewrite E.
Qed.

Lemma words_of_sub_ws b s :
  List.filter word_char (sub_ws b s) = List.filter word_char s.
Proof.
  revert b. induction s as [|c s IH]; intros b; simpl; [done|].
  destruct (is_space c) eqn:E.
  - rewrite (word_char_not_space c E).
    destruct b; simpl; apply IH.
  - simpl. by rewrite IH.
Qed.

Lemma words_of_lstrip s :
  List.filter word_char (lstrip s) = List.filter word_char s.
Proof.
  induction s as [|c s IH]; simpl; [done|].
  destruct (is_space c) eqn:E; [|done].
  by rewrite (word_char_not_space c E).
Qed.

Lemma words_of_rstrip s :
  List.filter word_char (rstrip s) = List.filter word_char s.
Proof.
  induction s as [|c s IH]; simpl; [done|]. rewrite <- IH.
  destruct (rstrip s) as [|d r]; [|done].
  destruct (is_space c) eqn:E; simpl.
  - by rewrite (word_char_not_space c E).
  - by destruct (word_char c).
Qed.

Lemma words_of_clean_text s :
  List.filter word_char (clean_text s) = List.filter word_char s.
Proof.
  unfold clean_text, collapse_whitespace, strip.
  by rewrite words_of_rstrip, words_of_lstrip, words_of_sub_ws,
    words_of_remove_nonprintable.
Qed.

Lemma filter_nil_Forall (f : char -> bool) s :
  List.filter f s = [] <-> Forall (fun c => f c = false) s.
Proof.
  induction s as [|c s IH]; simpl; [by split|].
  destruct (f c) eqn:E.
  - split; [done|]. intros Hf. inversion Hf; congruence.
  - rewrite IH. split; [by constructor|]. by inversion 1.
Qed.

Lemma clean_text_nil_iff s :
  clean_text s = [] <-> Forall (fun c => word_char c = false) s.
Proof.
  rewrite <- filter_nil_Forall, <- words_of_clean_text. split.
  - by intros ->.
  - intros Hf. destruct (clean_text_cleaned s) as [Hp _ Hs].
    pose proof (lstrip_starts_nonspace (clean_text s)) as Hst.
    apply rstrip_starts_nonspace in Hst. fold (strip (clean_text s)) in Hst.
    rewrite Hs in Hst.
    destruct (clean_text s) as [|c t]; [done|]. exfalso.
    simpl in Hst, Hf. inversion Hp as [|? ? Hc _]; subst.
    unfold word_char in Hf. by rewrite Hc, Hst in Hf.
Qed.

End NormalizerShape.

(** X1.  Every character of a cleaned text is in the printable ASCII range
    0x20-0x7E, whatever the input. *)
Theorem clean_text_printable_ascii (s : pystr) :
  Forall (fun c => 32 <= c <= 126) (clean_text s).
Proof.
  eapply Forall_impl; [apply clean_text_cleaned|].
  intros c. unfold printable. rewrite andb_true_iff, !N.leb_le. done.
Qed.

(** X2.  A cleaned text does not begin with a space, does not end with a
    space, and has no two spaces in a row. *)
Theorem clean_text_single_spaced (s : pystr) :
  head (clean_text s) <> Some SP /\
  last (clean_text s) <> Some SP /\
  (forall a r, clean_text s <> a ++ SP :: SP :: r).
Proof.
  destruct (clean_text_cleaned s) as [_ Hn Hs]. repeat split.
  - intros Hh. rewrite <- Hs in Hh. unfold strip in Hh.
    pose proof (rstrip_starts_nonspace _ (lstrip_starts_nonspace (clean_text s)))
      as Hst.
    destruct (rstrip (lstrip (clean_text s))) as [|c t]; [done|].
    simpl in Hh, Hst. injection Hh as ->. done.
  - intros Hl. rewrite <- Hs in Hl. unfold strip in Hl.
    by apply rstrip_last_nonspace in Hl.
  - intros a r E. rewrite E in Hn.
    by rewrite normal_from_no_double_space in Hn.
Qed.

(** X3.  [clean_text] only deletes characters: its result is a subsequence
    of its input (nothing is inserted, replaced or reordered), so it is never
    longer than the input. *)
Theorem clean_text_only_deletes (s : pystr) :
  clean_text s `sublist_of` s /\ (length (clean_text s) <= length s)%nat.
Proof.
  assert (clean_text s `sublist_of` s) as Hsub.
  { unfold clean_text, collapse_whitespace, strip.
    transitivity (lstrip (sub_ws false (remove_nonprintable s)));
      [apply rstrip_sublist|].
    transitivity (sub_ws false (remove_nonprintable s));
      [apply lstrip_sublist|].
    transitivity (remove_nonprintable s); [|apply remove_nonprintable_sublist].
    apply sub_ws_sublist, remove_nonprintable_printable. }
  split; [done|]. by apply sublist_length.
Qed.

(** X4.  [clean_text] keeps every printable character that is not a space,
    in order, and no other character but spaces: filtering the result and
    the input down to those characters gives the same string. *)
Theorem clean_text_keeps_word_characters (s : pystr) :
  List.filter word_char (clean_text s) = List.filter word_char s /\
  Forall (fun c => word_char c = true \/ c = SP) (clean_text s).
Proof.
  split; [apply words_of_clean_text|].
  eapply Forall_impl; [apply clean_text_cleaned|].
  intros c Hp. unfold word_char. rewrite Hp. simpl.
  destruct (is_space c) eqn:E; [right|by left].
  by apply printable_space_is_SP.
Qed.

(** X5.  The cleaned text is empty exactly when the input has no printable
    character other than spaces (in particular for the empty input and for
    input made of whitespace and control characters only). *)
Theorem clean_text_empty_iff (s : pystr) :
  clean_text s = [] <-> Forall (fun c => word_char c = false) s.
Proof. apply clean_text_nil_iff. Qed.

(** * Further properties of the recognizer wrapper *)

Section Joined.

Implicit Types (s t w r : pystr) (ws : list pystr) (c : char) (b : bool).

Lemma normal_from_word b w r :
  Forall (fun c => word_char c = true) w -> w <> [] ->
  normal_from b (w ++ r) = normal_from false r.
Proof.
  intros Hw. revert b.
  induction Hw as [|c w Hc Hw IH]; intros b Hne; [done|]. simpl.
  rewrite (word_char_nonspace _ Hc).
  destruct w as [|d w]; [done|]. by apply IH.
Qed.

Lemma join_words_nonempty ws :
  Forall is_word ws -> ws <> [] -> join [SP] ws <> [].
Proof.
  intros Hws Hne. destruct Hws as [|w ws [Hw _] _]; [done|].
  destruct ws; simpl; [done|]. by destruct w.
Qed.

Lemma join_words_normal b ws :
  Forall is_word ws -> ws <> [] -> normal_from b (join [SP] ws) = true.
Proof.
  intros Hws. revert b.
  induction Hws as [|w ws [Hne Hw] Hws IH]; intros b _; [done|].
  destruct ws as [|w' ws].
  - simpl. rewrite <- (app_nil_r w). by rewrite normal_from_word.
  - change (join [SP] (w :: w' :: ws)) with (w ++ SP :: join [SP] (w' :: ws)).
    rewrite normal_from_word by done. simpl. by apply IH.
Qed.

Lemma join_words_printable ws :
  Forall is_word ws -> Forall (fun c => printable c = true) (join [SP] ws).
Proof.
  induction 1 as [|w ws [_ Hw] Hws IH]; [constructor|].
  assert (Forall (fun c => printable c = true) w) as Hp.
  { eapply Forall_impl; [exact Hw|]. apply word_char_printable. }
  destruct ws as [|w' ws]; [done|].
  change (join [SP] (w :: w' :: ws)) with (w ++ SP :: join [SP] (w' :: ws)).
  apply Forall_app. split; [done|]. by constructor.
Qed.

Lemma join_words_rstrip ws :
  Forall is_word ws -> rstrip (join [SP] ws) = join [SP] ws.
Proof.
  induction 1 as [|w ws Hw Hws IH]; [done|].
  destruct ws as [|w' ws]; [by apply rstrip_word|].
  change (join [SP] (w :: w' :: ws))
    with (w ++ [SP] ++ join [SP] (w' :: ws)).
  rewrite !app_assoc, rstrip_app; rewrite IH; [done|].
  by apply join_words_nonempty.
Qed.

Lemma join_words_starts_nonspace ws :
  Forall is_word ws -> starts_nonspace (join [SP] ws).
Proof.
  intros Hws. destruct Hws as [|w ws [Hne Hw] _]; [done|].
  assert (starts_nonspace w) as Hst.
  { destruct Hw as [|c w Hc _]; [done|]. by apply word_char_nonspace. }
  destruct ws; simpl; [done|]. by destruct w.
Qed.

(** Words joined by single spaces are already clean. *)
Lemma join_words_cleaned ws : Forall is_word ws -> cleaned (join [SP] ws).
Proof.
  intros Hws. split.
  - by apply join_words_printable.
  - destruct ws; [done|]. by apply join_words_normal.
  - unfold strip. rewrite starts_nonspace_lstrip.
    + by apply join_words_rstrip.
    + by apply join_words_starts_nonspace.
Qed.

Lemma join_no_words ws :
  Forall (Forall (fun c => word_char c = false)) ws ->
  Forall (fun c => word_char c = false) (join [SP] ws).
Proof.
  induction 1 as [|w ws Hw Hws IH]; [constructor|].
  destruct ws as [|w' ws]; [done|].
  change (join [SP] (w :: w' :: ws)) with (w ++ SP :: join [SP] (w' :: ws)).
  apply Forall_app. split; [done|]. by constructor.
Qed.

End Joined.

Section Recognizer.

Context `{Libs}.
Implicit Types (w : world) (path : pystr) (img : image).

Lemma extract_text_from_image_decoded path w img :
  imread (fs w) path = Some img ->
  extract_text_from_image path w =
  (World (fs w)
     (log w ++ [EvPreprocess path;
                EvReadtext (adaptiveThreshold (GaussianBlur5 img) 255 11 2)]),
   match readtext (adaptiveThreshold (GaussianBlur5 img) 255 11 2) with
   | inr dets => inr (clean_text (raw_text dets))
   | inl e => inl e
   end).
Proof.
  intros E. run. rewrite E. simpl. rewrite <- app_assoc. simpl.
  by destruct (readtext _).
Qed.

Lemma extract_text_from_image_undecoded path w :
  imread (fs w) path = None ->
  extract_text_from_image path w =
  (World (fs w) (log w ++ [EvPreprocess path]),
   inl (FileNotFoundError (image_not_found path))).
Proof. intros E. run. by rewrite E. Qed.

End Recognizer.

(** X6.  When every detection is a printable word (no whitespace, no
    character outside 0x21-0x7E), the text returned for the image is exactly
    the detections in order with single spaces between them: the normalizer
    changes nothing. *)
Theorem extract_text_from_image_of_words `{Libs} (image_path : pystr)
    (w : world) (img : image) (dets : list detection) :
  imread (fs w) image_path = Some img ->
  readtext (adaptiveThreshold (GaussianBlur5 img) 255 11 2) = inr dets ->
  Forall (fun d => is_word (det_text d)) dets ->
  (extract_text_from_image image_path w).2 =
  inr (join [SP] (map det_text dets)).
Proof.
  intros Himg Hdets Hw.
  rewrite (extract_text_from_image_decoded _ _ _ Himg), Hdets. simpl.
  f_equal. apply cleaned_fixed, join_words_cleaned. by apply Forall_map.
Qed.

Lemma extract_text_from_image_of_words_witness :
  let H := sample_libs two_words in
  let w := World {[ of_string "note.jpg" := one_pixel_pgm 7 ]} [] in
  (extract_text_from_image (of_string "note.jpg") w).2 =
  inr (of_string "HELLO WORLD").
Proof.
  intros H w.
  apply (extract_text_from_image_of_words (of_string "note.jpg") w [[7%Z]]
           hello_world).
  - unfold imread, w. simpl fs. rewrite lookup_singleton_eq. reflexivity.
  - reflexivity.
  - repeat constructor; discriminate.
Defined.

(** X7.  When the engine finds nothing, or nothing but whitespace and
    characters outside the printable range, the text returned for the image
    is the empty string. *)
Theorem extract_text_from_image_nothing_legible `{Libs} (image_path : pystr)
    (w : world) (img : image) (dets : list detection) :
  imread (fs w) image_path = Some img ->
  readtext (adaptiveThreshold (GaussianBlur5 img) 255 11 2) = inr dets ->
  Forall (fun d => Forall (fun c => word_char c = false) (det_text d)) dets ->
  (extract_text_from_image image_path w).2 = inr [].
Proof.
  intros Himg Hdets Hw.
  rewrite (extract_text_from_image_decoded _ _ _ Himg), Hdets. simpl.
  f_equal. apply clean_text_nil_iff, join_no_words. by apply Forall_map.
Qed.

Lemma extract_text_from_image_nothing_legible_witness :
  let H := sample_libs (fun _ => inr [Detection [] [9; 10] (1%Z, 2%positive);
                                      Detection [] [] (1%Z, 3%positive)]) in
  let w := World {[ of_string "blank.png" := one_pixel_pgm 7 ]} [] in
  (extract_text_from_image (of_string "blank.png") w).2 = inr [].
Proof.
  intros H w.
  apply (extract_text_from_image_nothing_legible (of_string "blank.png") w
           [[7%Z]]
           [Detection [] [9; 10] (1%Z, 2%positive);
            Detection [] [] (1%Z, 3%positive)]).
  - unfold imread, w. simpl fs. rewrite lookup_singleton_eq. reflexivity.
  - reflexivity.
  - repeat constructor.
Defined.

(** X8.  [extract_text_from_image] never writes to the file system, whether
    it returns or raises; for a path at which there is no file it raises
    [FileNotFoundError] and the engine is not called. *)
Theorem extract_text_from_image_reads_only `{Libs} (image_path : pystr)
    (w : world) :
  fs (extract_text_from_image image_path w).1 = fs w /\
  (fs w !! image_path = None ->
   extract_text_from_image image_path w =
   (World (fs w) (log w ++ [EvPreprocess image_path]),
    inl (FileNotFoundError (image_not_found image_path)))).
Proof.
  split.
  - destruct (imread (fs w) image_path) as [img|] eqn:E.
    + by rewrite (extract_text_from_image_decoded _ _ _ E).
    + by rewrite (extract_text_from_image_undecoded _ _ E).
  - intros Hno. apply extract_text_from_image_undecoded.
    unfold imread. by rewrite Hno.
Qed.

Lemma extract_text_from_image_reads_only_witness :
  let H := sample_libs two_words in
  extract_text_from_image (of_string "gone.png") empty_world =
  (World ∅ [EvPreprocess (of_string "gone.png")],
   inl (FileNotFoundError (of_string "Image not found: gone.png"))).
Proof.
  intros H.
  apply (proj2 (extract_text_from_image_reads_only (of_string "gone.png")
                  empty_world)).
  reflexivity.
Defined.

(** * Further properties of the configuration and of [allowed_file] *)

Section Split.

Implicit Types (s p : pystr) (ps : list pystr) (c x : char).

Lemma split_nonempty c s : split c s <> [].
Proof.
  destruct s as [|x s]; simpl; [done|].
  destruct (x =? c); [done|]. by destruct (split c s).
Qed.

Lemma join_split c s : join [c] (split c s) = s.
Proof.
  induction s as [|x s IH]; simpl; [done|].
  pose proof (split_nonempty c s) as Hne.
  destruct (split c s) as [|p ps]; [done|].
  destruct (N.eqb_spec x c) as [->|_].
  - change (join [c] ([] :: p :: ps)) with (c :: join [c] (p :: ps)).
    by rewrite IH.
  - rewrite <- IH. by destruct ps.
Qed.

Lemma split_pieces c s : Forall (fun p => contains c p = false) (split c s).
Proof.
  induction s as [|x s IH]; simpl; [by repeat constructor|].
  destruct (N.eqb_spec x c) as [->|Hx]; [by constructor|].
  destruct IH as [|p ps Hp Hps]; [by repeat constructor; simpl;
    rewrite (proj2 (N.eqb_neq x c) Hx)|].
  constructor; [|done]. simpl. by rewrite (proj2 (N.eqb_neq x c) Hx).
Qed.

Lemma split_piece_app c p s :
  contains c p = false ->
  split c (p ++ c :: s) = p :: split c s.
Proof.
  induction p as [|x p IH]; simpl.
  - by rewrite N.eqb_refl.
  - rewrite orb_false_iff. intros [Hx Hp]. by rewrite Hx, (IH Hp).
Qed.

Lemma split_piece c p : contains c p = false -> split c p = [p].
Proof.
  induction p as [|x p IH]; simpl; [done|].
  rewrite orb_false_iff. intros [Hx Hp]. by rewrite Hx, (IH Hp).
Qed.

Lemma split_join c ps :
  ps <> [] -> Forall (fun p => contains c p = false) ps ->
  split c (join [c] ps) = ps.
Proof.
  intros Hne Hps. induction Hps as [|p ps Hp Hps IH]; [done|].
  destruct ps as [|q ps]; [by apply split_piece|].
  change (join [c] (p :: q :: ps)) with (p ++ c :: join [c] (q :: ps)).
  rewrite split_piece_app by done. by rewrite IH.
Qed.

(** Splitting distributes over a separator. *)
Lemma split_app c s t : split c (s ++ c :: t) = split c s ++ split c t.
Proof.
  induction s as [|x s IH]; simpl.
  - by rewrite N.eqb_refl.
  - rewrite IH. destruct (x =? c); [done|].
    pose proof (split_nonempty c s) as Hne.
    by destruct (split c s).
Qed.

End Split.

(** X9.  [str.split] and [str.join] with the same one-character separator
    undo each other: the pieces of a string, joined, give the string back,
    no piece contains the separator and there is at least one piece; and a
    non-empty list of separator-free pieces is what splitting their join
    returns. *)
Theorem split_join_round_trip (c : char) :
  (forall s, join [c] (split c s) = s /\
             Forall (fun p => contains c p = false) (split c s) /\
             split c s <> []) /\
  (forall ps, ps <> [] -> Forall (fun p => contains c p = false) ps ->
              split c (join [c] ps) = ps).
Proof.
  split.
  - intros s. split; [apply join_split|].
    split; [apply split_pieces | apply split_nonempty].
  - apply split_join.
Qed.

Lemma split_join_round_trip_witness :
  split COMMA (join [COMMA] [of_string "jpg"; []; of_string "png"]) =
  [of_string "jpg"; []; of_string "png"].
Proof.
  apply (proj2 (split_join_round_trip COMMA)).
  - discriminate.
  - repeat constructor.
Defined.

(** X10.  Whatever the environment holds, the configured allow-set is not
    empty and none of its entries contains a comma; an entry may be the
    empty string (an empty value, a leading, trailing or doubled comma). *)
Theorem allow_set_of_environment (env : gmap string pystr) :
  ALLOWED_EXTENSIONS (load_config env) <> ∅ /\
  (forall e, e ∈ ALLOWED_EXTENSIONS (load_config env) ->
             contains COMMA e = false) /\
  (forall v a b : pystr, env !! "ALLOWED_EXTENSIONS"%string = Some v ->
                 (v = [] \/ v = a ++ [COMMA] \/ v = COMMA :: b \/
                  v = a ++ COMMA :: COMMA :: b) ->
                 [] ∈ ALLOWED_EXTENSIONS (load_config env)).
Proof.
  unfold load_config, ALLOWED_EXTENSIONS.
  set (v := getenv env "ALLOWED_EXTENSIONS" (of_string "jpg,jpeg,png")).
  repeat split.
  - pose proof (split_nonempty COMMA v) as Hne.
    destruct (split COMMA v) as [|p ps]; [done|]. set_solver.
  - intros e He. apply elem_of_list_to_set in He.
    pose proof (split_pieces COMMA v) as Hp.
    by apply (proj1 (list.Forall_forall _ _) Hp).
  - intros u a b Hu Hshape. apply elem_of_list_to_set.
    assert (v = u) as ->.
    { subst v. unfold getenv. by rewrite Hu. }
    destruct Hshape as [->|[->|[->| ->]]].
    + apply list_elem_of_here.
    + rewrite split_app. apply elem_of_app. right. apply list_elem_of_here.
    + apply list_elem_of_here.
    + rewrite split_app. apply elem_of_app. right. apply list_elem_of_here.
Qed.

Lemma allow_set_of_environment_witness :
  let env : gmap string pystr :=
    {[ "ALLOWED_EXTENSIONS"%string := of_string "jpg," ]} in
  [] ∈ ALLOWED_EXTENSIONS (load_config env).
Proof.
  intros env.
  apply (proj2 (proj2 (allow_set_of_environment env))
           (of_string "jpg,") (of_string "jpg") []).
  - reflexivity.
  - right. by left.
Defined.

(** X11.  Only what follows the last ['.'] of a file name is looked at: for
    an extension without ['.'], the name [stem.ext] is allowed exactly when
    the lower-case form of [ext] is in the allow-set, whatever the stem is
    (empty, with further dots, with path separators). *)
Theorem allowed_file_last_extension `{Libs} (cfg : config) (stem ext : pystr) :
  contains DOT ext = false ->
  allowed_file cfg (stem ++ DOT :: ext) =
  inr (bool_decide (str_lower ext ∈ ALLOWED_EXTENSIONS cfg)).
Proof.
  intros Hext. rewrite allowed_file_extension.
  by rewrite (proj2 (extension_Some (stem ++ DOT :: ext) ext)) by eauto.
Qed.

Lemma allowed_file_last_extension_witness :
  let H := sample_libs two_words in
  allowed_file default_config (of_string "archive.tar.exe.PNG") = inr true /\
  allowed_file default_config (of_string "photo.png.exe") = inr false.
Proof.
  intros H. split.
  - refine (eq_trans (allowed_file_last_extension default_config
                        (of_string "archive.tar.exe") (of_string "PNG")
                        eq_refl) _).
    vm_compute. reflexivity.
  - refine (eq_trans (allowed_file_last_extension default_config
                        (of_string "photo.png") (of_string "exe")
                        eq_refl) _).
    vm_compute. reflexivity.
Defined.

(** X12.  With no [ALLOWED_EXTENSIONS] in the environment, a file name is
    allowed exactly when it has a ['.'] and what follows the last one is, in
    lower case, [jpg], [jpeg] or [png]. *)
Theorem allowed_file_by_default `{Libs} (filename : pystr) :
  allowed_file default_config filename = inr true <->
  exists stem ext,
    filename = stem ++ DOT :: ext /\ contains DOT ext = false /\
    (str_lower ext = of_string "jpg" \/ str_lower ext = of_string "jpeg" \/
     str_lower ext = of_string "png").
Proof.
  rewrite allowed_file_true. split.
  - intros (ext & Hext & Hin). apply extension_Some in Hext as (stem & ? & ?).
    apply default_allowed in Hin. by exists stem, ext.
  - intros (stem & ext & Hname & Hdot & Hin). exists ext. split.
    + apply extension_Some. by exists stem.
    + by apply default_allowed.
Qed.

(** * Further properties of the request handler *)

Section Outcomes.

Context `{Libs} (cfg : config).
Implicit Types (w : world) (req : request) (file : FileStorage).

(** The pipeline of an accepted request, by what the decoder and the engine
    do with the upload. *)
Lemma handler_accepted req file w :
  accepted cfg req file ->
  save_succeeds cfg file w ->
  extract_text cfg req w =
  match imdecode_gray (stream file) with
  | None =>
      (saved cfg file w,
       inl (FileNotFoundError (image_not_found (temp_path cfg file))))
  | Some img =>
      let bin := adaptiveThreshold (GaussianBlur5 img) 255 11 2 in
      match readtext bin with
      | inl e =>
          (World (fs (saved cfg file w))
             (log (saved cfg file w) ++ [EvReadtext bin]),
           inl e)
      | inr dets =>
          (World (delete (temp_path cfg file) (fs (saved cfg file w)))
             (log (saved cfg file w) ++
              [EvReadtext bin; EvRemove (temp_path cfg file)]),
           inr (jsonify
                  [("extracted_text"%string, clean_text (raw_text dets))]
                  200))
      end
  end.
Proof.
  intros Hacc Hsave.
  destruct (imdecode_gray (stream file)) as [img|] eqn:Hdec.
  - simpl.
    destruct (readtext (adaptiveThreshold (GaussianBlur5 img) 255 11 2))
      as [e|dets] eqn:Hrt.
    + by apply handler_engine_raises.
    + by apply handler_success.
  - by apply handler_undecodable.
Qed.

(** Every request is refused with a 400 in the world it arrived in, or is
    accepted. *)
Lemma handler_refused_or_accepted req w :
  (exists msg, extract_text cfg req w =
               (w, inr (Response 400 [("error"%string, msg)]))) \/
  (exists file, accepted cfg req file).
Proof.
  destruct (files req !! "file"%string) as [file|] eqn:E.
  - destruct (decide (filename file = [])) as [Hn|Hn].
    + left. eexists. by apply (handler_empty_name cfg req file).
    + destruct (allowed_file_total cfg (filename file)) as [[] Hb].
      * right. by exists file.
      * left. eexists. by apply (handler_rejected cfg req file).
  - left. eexists. by apply handler_no_file.
Qed.

(** A request that gets a response was not refused by the operating
    system. *)
Lemma response_save_succeeds req file w resp :
  accepted cfg req file ->
  (extract_text cfg req w).2 = inr resp ->
  save_succeeds cfg file w.
Proof.
  intros Hacc Hrun. unfold save_succeeds.
  destruct (save_failure (fs w) (temp_path cfg file) (stream file))
    as [[e partial]|] eqn:Hsave; [|done].
  rewrite (handler_save_fails cfg req file w e partial Hacc Hsave) in Hrun.
  done.
Qed.

Lemma accepted_unique req file file' :
  accepted cfg req file -> accepted cfg req file' -> file = file'.
Proof. intros [E _] [E' _]. congruence. Qed.

End Outcomes.

(** X13.  An upload whose file name is empty is refused with status 400 and
    [{"error": "No selected file"}], whatever its content and whatever the
    allow-set; nothing is written and neither the preprocessor nor the engine
    is called. *)
Theorem empty_filename_refused `{Libs} (cfg : config) (req : request)
    (file : FileStorage) (w : world) :
  files req !! "file"%string = Some file ->
  filename file = [] ->
  extract_text cfg req w =
  (w, inr (Response 400 [("error"%string, of_string "No selected file")])).
Proof. apply handler_empty_name. Qed.

Lemma empty_filename_refused_witness :
  let H := sample_libs two_words in
  extract_text default_config (upload "" [7]) empty_world =
  (empty_world,
   inr (Response 400 [("error"%string, of_string "No selected file")])).
Proof.
  intros H.
  apply (empty_filename_refused default_config (upload "" [7])
           {| filename := []; stream := [7] |} empty_world).
  - vm_compute. reflexivity.
  - reflexivity.
Defined.

(** X14.  The handler returns only two kinds of response.  A response of
    status 400 carries a single ["error"] entry and leaves the world as it
    was.  Any other response has status 200, belongs to an accepted request,
    carries a single ["extracted_text"] entry whose text is already clean,
    and leaves the file system as it was except that there is no file at
    the temporary path (a file that was there before the request is gone). *)
Theorem handler_responses `{Libs} (cfg : config) (req : request)
    (w w' : world) (resp : response) :
  extract_text cfg req w = (w', inr resp) ->
  (status resp = 400 /\ w' = w /\
   exists msg, body resp = [("error"%string, msg)]) \/
  (status resp = 200 /\
   exists file text,
     accepted cfg req file /\
     body resp = [("extracted_text"%string, text)] /\
     clean_text text = text /\
     fs w' = delete (temp_path cfg file) (fs w)).
Proof.
  intros Hrun.
  destruct (handler_refused_or_accepted cfg req w) as [[msg Hr]|[file Hacc]].
  - left. rewrite Hr in Hrun. injection Hrun as <- <-. eauto.
  - right.
    assert (save_succeeds cfg file w) as Hsave.
    { apply (response_save_succeeds cfg req file w resp Hacc).
      by rewrite Hrun. }
    rewrite (handler_accepted cfg req file w Hacc Hsave) in Hrun.
    destruct (imdecode_gray (stream file)) as [img|]; [|done].
    simpl in Hrun.
    destruct (readtext (adaptiveThreshold (GaussianBlur5 img) 255 11 2))
      as [e|dets]; [done|].
    injection Hrun as <- <-. split; [done|].
    exists file, (clean_text (raw_text dets)).
    split; [done|]. split; [done|]. split.
    + apply cleaned_fixed, clean_text_cleaned.
    + simpl. apply delete_insert_eq.
Qed.

Lemma handler_responses_witness :
  let H := sample_libs two_words in
  let stale : gmap pystr bytes :=
    {[ of_string "app/uploads/note.JPG" := [1; 2; 3] ]} in
  let resp := Response 200
                [("extracted_text"%string, of_string "HELLO WORLD")] in
  exists w',
    extract_text default_config (upload "note.JPG" (one_pixel_pgm 7)) (World stale [])
      = (w', inr resp) /\
    fs w' = ∅.
Proof.
  intros H stale resp.
  set (run := extract_text default_config (upload "note.JPG" (one_pixel_pgm 7))
                (World stale [])).
  assert (run = (run.1, inr resp)) as Hrun by (vm_compute; reflexivity).
  exists run.1. split; [exact Hrun|].
  destruct (handler_responses default_config (upload "note.JPG" (one_pixel_pgm 7))
              (World stale []) run.1 resp Hrun)
    as [(Hst & _)|(_ & file & text & Hacc & _ & _ & Hfs)].
  - discriminate Hst.
  - rewrite Hfs.
    rewrite (accepted_unique default_config (upload "note.JPG" (one_pixel_pgm 7)) file
               {| filename := of_string "note.JPG"; stream := one_pixel_pgm 7 |} Hacc)
      by accept.
    vm_compute. reflexivity.
Defined.




(** X17.  On the path on which everything succeeds the handler saves the
    upload, preprocesses the saved file, calls the engine once, on the
    binarized image, and removes the file, in this order and with nothing in
    between; when no file was at the temporary path before, the file system
    ends as it began. *)
Theorem handler_success_calls `{Libs} (cfg : config) (req : request)
    (file : FileStorage) (w w' : world) (resp : response) :
  accepted cfg req file ->
  extract_text cfg req w = (w', inr resp) ->
  (exists bin,
     binarized bin /\
     log w' = log w ++ [EvSave (temp_path cfg file);
                        EvPreprocess (temp_path cfg file);
                        EvReadtext bin;
                        EvRemove (temp_path cfg file)]) /\
  (fs w !! temp_path cfg file = None -> fs w' = fs w).
Proof.
  intros Hacc Hrun.
  assert (save_succeeds cfg file w) as Hsave.
  { apply (response_save_succeeds cfg req file w resp Hacc).
    by rewrite Hrun. }
  rewrite (handler_accepted cfg req file w Hacc Hsave) in Hrun.
  destruct (imdecode_gray (stream file)) as [img|]; [|done]. simpl in Hrun.
  destruct (readtext (adaptiveThreshold (GaussianBlur5 img) 255 11 2))
    as [e|dets]; [done|].
  injection Hrun as <- <-. split.
  - eexists. split; [apply adaptiveThreshold_binarized|].
    simpl. by rewrite <- app_assoc.
  - intros Hfresh. simpl. rewrite delete_insert_eq. by apply delete_id.
Qed.

Lemma handler_success_calls_witness :
  let H := sample_libs two_words in
  let req := upload "note.JPG" (one_pixel_pgm 7) in
  fs (extract_text default_config req empty_world).1 = ∅.
Proof.
  intros H req.
  set (run := extract_text default_config req empty_world).
  assert (run = (run.1,
                 inr (Response 200
                        [("extracted_text"%string,
                          of_string "HELLO WORLD")]))) as Hrun
    by (vm_compute; reflexivity).
  refine (proj2 (handler_success_calls default_config req
                   {| filename := of_string "note.JPG"; stream := one_pixel_pgm 7 |}
                   empty_world run.1 _ _ Hrun) _).
  - accept.
  - reflexivity.
Defined.

(** * The normalizer, characterised *)

Section Characterisation.

Implicit Types (s t u p r : pystr) (ps : list pystr) (c x : char) (b : bool).









End Characterisation.


